(** * Thrust allocation of the riptide thruster controller

    A shallow embedding of [riptide_controllers/src/thruster_controller.cpp]:
    the six residual functors, the construction of the least-squares problem
    with its box constraints, the inertial handler [state] and the command
    handler [callback], and the event loop of [main].

    The residual functors are C++ templates over the scalar type [T] (the
    solver instantiates them at [double] and at its automatic-differentiation
    type).  The embedding keeps that shape: every definition is written over
    a scalar interface [Scalar T], which is then instantiated twice,
      - at the real numbers, where the algebraic laws of the equations are
        proved (rounding is not modelled there), and
      - at IEEE-754 binary64 (the kernel's primitive floats), where the code
        can be run on concrete inputs, NaN included, and where what the
        handlers compute in [double] is stated, through the specification
        of the float operations. *)

From Stdlib Require Import ZArith List String Bool Reals Lra Lia.
From Stdlib Require PrimFloat Uint63 SpecFloat FloatOps FloatAxioms.
Import ListNotations.

Set Implicit Arguments.

(** ** Scalars *)

Class Scalar (T : Type) : Type := {
  s_of_Z : Z -> T;
  s_add : T -> T -> T;
  s_sub : T -> T -> T;
  s_mul : T -> T -> T;
  s_div : T -> T -> T;
  s_opp : T -> T;
  s_sqrt : T -> T;
  s_abs : T -> T;
  s_ltb : T -> T -> bool;
  s_leb : T -> T -> bool
}.

Declare Scope scalar_scope.
Delimit Scope scalar_scope with S.
Infix "+" := s_add : scalar_scope.
Infix "-" := s_sub : scalar_scope.
Infix "*" := s_mul : scalar_scope.
Infix "/" := s_div : scalar_scope.
Notation "- x" := (s_opp x) : scalar_scope.

(** Real numbers: exact arithmetic, without rounding, overflow or NaN, and
    with the convention that a division by zero gives zero.  This instance
    is used for the templated equations and for the absent solver, where
    every divisor is a nonzero constant; what the handlers compute in
    [double] is stated at binary64. *)
#[export] Instance Scalar_R : Scalar R := {|
  s_of_Z := IZR;
  s_add := Rplus;
  s_sub := Rminus;
  s_mul := Rmult;
  s_div := Rdiv;
  s_opp := Ropp;
  s_sqrt := sqrt;
  s_abs := Rabs;
  s_ltb := fun a b => if Rlt_dec a b then true else false;
  s_leb := fun a b => if Rle_dec a b then true else false
|}.

(** binary64: an integer literal of the source is converted exactly (all the
    literals of this file are below 2^53). *)
Definition float_of_Z (n : Z) : PrimFloat.float :=
  match n with
  | Z0 => PrimFloat.zero
  | Zpos _ => PrimFloat.of_uint63 (Uint63.of_Z n)
  | Zneg p => PrimFloat.opp (PrimFloat.of_uint63 (Uint63.of_Z (Zpos p)))
  end.

#[export] Instance Scalar_float : Scalar PrimFloat.float := {|
  s_of_Z := float_of_Z;
  s_add := PrimFloat.add;
  s_sub := PrimFloat.sub;
  s_mul := PrimFloat.mul;
  s_div := PrimFloat.div;
  s_opp := PrimFloat.opp;
  s_sqrt := PrimFloat.sqrt;
  s_abs := PrimFloat.abs;
  s_ltb := PrimFloat.ltb;
  s_leb := PrimFloat.leb
|}.

(** A decimal literal [m * 10^-e] of the source, such as [34.47940950].  At
    binary64 the quotient of two exactly represented integers is the
    correctly rounded value of the literal. *)
Definition decimal {T} `{Scalar T} (m : Z) (e : nat) : T :=
  (s_of_Z m / s_of_Z (10 ^ Z.of_nat e))%S.

(** ** Data *)

(** [struct vector] of the source file. *)
Module vector.
Record t (T : Type) : Type := mk { x : T; y : T; z : T }.
End vector.

(** The parts of the tf linear-math types that the controller touches. *)
Module tf.
Record Vector3 (T : Type) : Type := mkVector3 { x : T; y : T; z : T }.
Record Quaternion (T : Type) : Type :=
  mkQuaternion { qx : T; qy : T; qz : T; qw : T }.
(** Three rows, as tf stores them. *)
Record Matrix3x3 (T : Type) : Type :=
  mkMatrix3x3 { row0 : Vector3 T; row1 : Vector3 T; row2 : Vector3 T }.
End tf.

Module geometry_msgs.
Record Vector3 (T : Type) : Type := mkVector3 { x : T; y : T; z : T }.
Record Quaternion (T : Type) : Type :=
  mkQuaternion { qx : T; qy : T; qz : T; qw : T }.
Record Accel (T : Type) : Type :=
  mkAccel { linear : Vector3 T; angular : Vector3 T }.
End geometry_msgs.

Module sensor_msgs.
Record Imu (T : Type) : Type := mkImu {
  orientation : geometry_msgs.Quaternion T;
  angular_velocity : geometry_msgs.Vector3 T;
  linear_acceleration : geometry_msgs.Vector3 T
}.
End sensor_msgs.

(** ROS time, as handed out by [ros::Time::now()]. *)
Definition Time : Type := Z.

Module riptide_msgs.
Record Thrust (T : Type) : Type := mkThrust {
  surge_stbd_hi : T;
  surge_port_hi : T;
  surge_port_lo : T;
  surge_stbd_lo : T;
  sway_fwd : T;
  sway_aft : T;
  heave_port_aft : T;
  heave_stbd_aft : T;
  heave_stbd_fwd : T;
  heave_port_fwd : T
}.
Record ThrustStamped (T : Type) : Type := mkThrustStamped {
  frame_id : string;
  stamp : Time;
  force : Thrust T
}.
End riptide_msgs.

(** The ten [double] members of the controller that the solver reads and
    writes: the unknowns of the problem. *)
Record Unknowns (T : Type) : Type := mkUnknowns {
  surge_port_hi : T;
  surge_stbd_hi : T;
  surge_port_lo : T;
  surge_stbd_lo : T;
  sway_fwd : T;
  sway_aft : T;
  heave_port_fwd : T;
  heave_stbd_fwd : T;
  heave_port_aft : T;
  heave_stbd_aft : T
}.

(** The address of one of those members ([&surge_port_hi], ...): what the
    problem holds as a parameter block. *)
Module Ptr.
Inductive t : Set :=
| surge_port_hi | surge_stbd_hi | surge_port_lo | surge_stbd_lo
| sway_fwd | sway_aft
| heave_port_fwd | heave_stbd_fwd | heave_port_aft | heave_stbd_aft.

Definition eq_dec (a b : t) : {a = b} + {a <> b}.
Proof. decide equality. Defined.

Definition all : list t :=
  [surge_port_hi; surge_stbd_hi; surge_port_lo; surge_stbd_lo;
   sway_fwd; sway_aft;
   heave_port_fwd; heave_stbd_fwd; heave_port_aft; heave_stbd_aft].
End Ptr.

(** The file-scope variables that the handlers write and the functors read. *)
Record Globals (T : Type) : Type := mkGlobals {
  rotation_matrix : tf.Matrix3x3 T;
  ang_v : tf.Vector3 T;
  cmdSurge : T;
  cmdSway : T;
  cmdHeave : T;
  cmdRoll : T;
  cmdPitch : T;
  cmdYaw : T;
  v_imu : vector.t T;
  pos_surge_stbd_hi : vector.t T;
  pos_surge_port_hi : vector.t T;
  pos_surge_port_lo : vector.t T;
  pos_surge_stbd_lo : vector.t T;
  pos_sway_fwd : vector.t T;
  pos_sway_aft : vector.t T;
  pos_heave_port_aft : vector.t T;
  pos_heave_stbd_aft : vector.t T;
  pos_heave_stbd_fwd : vector.t T;
  pos_heave_port_fwd : vector.t T
}.

(** ** The solver's interface *)

Module ceres.
Inductive LinearSolverType : Set := DENSE_QR | DENSE_NORMAL_CHOLESKY.
(** The two option fields that the controller sets. *)
Record Options : Set := mkOptions {
  max_num_iterations : nat;
  linear_solver_type : LinearSolverType
}.

Inductive TerminationType : Set :=
  CONVERGENCE | NO_CONVERGENCE | FAILURE.
Record Summary : Set := mkSummary {
  termination_type : TerminationType;
  num_iterations : nat
}.
Definition default_summary : Summary :=
  {| termination_type := FAILURE; num_iterations := 0 |}.
End ceres.

(** ** The controller, over any scalar type *)

Section Controller.

Context {T : Type} `{Scalar T}.
Local Open Scope scalar_scope.

Local Notation "0" := (s_of_Z 0) : scalar_scope.
Local Notation "1" := (s_of_Z 1) : scalar_scope.
Local Notation "2" := (s_of_Z 2) : scalar_scope.

(** *** Constants *)

(** Thrust limits (N). *)
Definition MIN_THRUST : T := s_of_Z (-5).
Definition MAX_THRUST : T := s_of_Z 5.

(** Vehicle mass (kg). *)
Definition MASS : T := decimal 3447940950 8.

(** Moments of inertia. *)
Definition Ixx : T := decimal 1335 3.
Definition Iyy : T := decimal 1501 3.
Definition Izz : T := decimal 6189 4.

(** *** tf helpers

    These come from the tf linear-math headers, not from the repository;
    they are written out as that library defines them, division by a zero
    length included. *)

Definition getRow (m : tf.Matrix3x3 T) (i : nat) : tf.Vector3 T :=
  match i with
  | O => tf.row0 m
  | S O => tf.row1 m
  | _ => tf.row2 m
  end.

Definition setIdentity : tf.Matrix3x3 T :=
  tf.mkMatrix3x3 (tf.mkVector3 1 0 0) (tf.mkVector3 0 1 0) (tf.mkVector3 0 0 1).

Definition setZero : tf.Vector3 T := tf.mkVector3 0 0 0.

Definition length2 (q : tf.Quaternion T) : T :=
  tf.qx q * tf.qx q + tf.qy q * tf.qy q + tf.qz q * tf.qz q
  + tf.qw q * tf.qw q.

Definition length (q : tf.Quaternion T) : T := s_sqrt (length2 q).

(** [q / s] is [q * (1 / s)]. *)
Definition quat_div (q : tf.Quaternion T) (s : T) : tf.Quaternion T :=
  let k := 1 / s in
  tf.mkQuaternion (tf.qx q * k) (tf.qy q * k) (tf.qz q * k) (tf.qw q * k).

Definition normalized (q : tf.Quaternion T) : tf.Quaternion T :=
  quat_div q (length q).

(** [0.1f] widened to double: 13421773 * 2^-27. *)
Definition QUATERNION_TOLERANCE : T := s_of_Z 13421773 / s_of_Z 134217728.

(** The message conversion normalises a quaternion whose squared length is
    further than the tolerance from one. *)
Definition quaternionMsgToTF (q : geometry_msgs.Quaternion T)
  : tf.Quaternion T :=
  let bt :=
    tf.mkQuaternion (geometry_msgs.qx q) (geometry_msgs.qy q)
                    (geometry_msgs.qz q) (geometry_msgs.qw q) in
  if s_ltb QUATERNION_TOLERANCE (s_abs (length2 bt - 1))
  then normalized bt
  else bt.

Definition vector3MsgToTF (v : geometry_msgs.Vector3 T) : tf.Vector3 T :=
  tf.mkVector3 (geometry_msgs.x v) (geometry_msgs.y v) (geometry_msgs.z v).

Definition setRotation (q : tf.Quaternion T) : tf.Matrix3x3 T :=
  let d := length2 q in
  let s := 2 / d in
  let xs := tf.qx q * s in
  let ys := tf.qy q * s in
  let zs := tf.qz q * s in
  let wx := tf.qw q * xs in
  let wy := tf.qw q * ys in
  let wz := tf.qw q * zs in
  let xx := tf.qx q * xs in
  let xy := tf.qx q * ys in
  let xz := tf.qx q * zs in
  let yy := tf.qy q * ys in
  let yz := tf.qy q * zs in
  let zz := tf.qz q * zs in
  tf.mkMatrix3x3
    (tf.mkVector3 (1 - (yy + zz)) (xy - wz) (xz + wy))
    (tf.mkVector3 (xy + wz) (1 - (xx + zz)) (yz - wx))
    (tf.mkVector3 (xz - wy) (yz + wx) (1 - (xx + yy))).

(** [get_transform]: the origin of a looked-up transform, as a [vector]. *)
Definition get_transform (origin : tf.Vector3 T) : vector.t T :=
  vector.mk (tf.x origin) (tf.y origin) (tf.z origin).

(** *** Equations

    Each functor writes one residual and returns [true]; the embedding
    returns the residual.  The functors read the globals [g] when they are
    evaluated. *)

Section Equations.

Variable g : Globals T.

(** Linear equations. *)

Definition surge
  (surge_port_hi surge_stbd_hi surge_port_lo surge_stbd_lo
   sway_fwd sway_aft
   heave_port_fwd heave_stbd_fwd heave_port_aft heave_stbd_aft : T) : T :=
  (tf.x (getRow (rotation_matrix g) 0) * (surge_port_lo + surge_stbd_lo)
   + tf.z (getRow (rotation_matrix g) 0) * (heave_port_fwd + heave_stbd_fwd))
  / MASS
  - cmdSurge g.

Definition sway
  (surge_port_hi surge_stbd_hi surge_port_lo surge_stbd_lo
   sway_fwd sway_aft
   heave_port_fwd heave_stbd_fwd heave_port_aft heave_stbd_aft : T) : T :=
  (tf.x (getRow (rotation_matrix g) 1) * (surge_port_lo + surge_stbd_lo)
   + tf.z (getRow (rotation_matrix g) 1) * (heave_port_fwd + heave_stbd_fwd))
  / MASS
  - cmdSway g.

Definition heave
  (surge_port_hi surge_stbd_hi surge_port_lo surge_stbd_lo
   sway_fwd sway_aft
   heave_port_fwd heave_stbd_fwd heave_port_aft heave_stbd_aft : T) : T :=
  (tf.x (getRow (rotation_matrix g) 2) * (surge_port_lo + surge_stbd_lo)
   + tf.z (getRow (rotation_matrix g) 2) * (heave_port_fwd + heave_stbd_fwd))
  / MASS
  - cmdHeave g.

(** Angular equations. *)

Definition roll
  (sway_fwd sway_aft
   heave_port_fwd heave_stbd_fwd heave_port_aft heave_stbd_aft : T) : T :=
  (heave_port_fwd * vector.y (pos_heave_port_fwd g)
   + heave_stbd_fwd * vector.y (pos_heave_stbd_fwd g)
   + Iyy * tf.y (ang_v g) * tf.z (ang_v g)
   - Izz * tf.y (ang_v g) * tf.z (ang_v g))
  / Ixx
  - cmdRoll g.

Definition pitch
  (surge_port_hi surge_stbd_hi surge_port_lo surge_stbd_lo
   heave_port_fwd heave_stbd_fwd heave_port_aft heave_stbd_aft : T) : T :=
  (surge_port_lo * vector.z (pos_surge_port_lo g)
   + surge_stbd_lo * vector.z (pos_surge_stbd_lo g)
   + heave_port_fwd * (- vector.x (pos_heave_port_fwd g))
   + heave_stbd_fwd * (- vector.x (pos_heave_stbd_fwd g))
   + Izz * tf.x (ang_v g) * tf.z (ang_v g)
   - Ixx * tf.x (ang_v g) * tf.z (ang_v g))
  / Iyy
  - cmdPitch g.

Definition yaw
  (surge_port_hi surge_stbd_hi surge_port_lo surge_stbd_lo
   sway_fwd sway_aft : T) : T :=
  (surge_port_lo * (- vector.y (pos_surge_port_lo g))
   + surge_stbd_lo * (- vector.y (pos_surge_stbd_lo g))
   + Ixx * tf.x (ang_v g) * tf.y (ang_v g)
   - Iyy * tf.x (ang_v g) * tf.y (ang_v g))
  / Izz
  - cmdYaw g.

End Equations.

(** *** The problem *)

Definition deref (p : Ptr.t) (u : Unknowns T) : T :=
  match p with
  | Ptr.surge_port_hi => surge_port_hi u
  | Ptr.surge_stbd_hi => surge_stbd_hi u
  | Ptr.surge_port_lo => surge_port_lo u
  | Ptr.surge_stbd_lo => surge_stbd_lo u
  | Ptr.sway_fwd => sway_fwd u
  | Ptr.sway_aft => sway_aft u
  | Ptr.heave_port_fwd => heave_port_fwd u
  | Ptr.heave_stbd_fwd => heave_stbd_fwd u
  | Ptr.heave_port_aft => heave_port_aft u
  | Ptr.heave_stbd_aft => heave_stbd_aft u
  end.

Definition tabulate (f : Ptr.t -> T) : Unknowns T :=
  {| surge_port_hi := f Ptr.surge_port_hi;
     surge_stbd_hi := f Ptr.surge_stbd_hi;
     surge_port_lo := f Ptr.surge_port_lo;
     surge_stbd_lo := f Ptr.surge_stbd_lo;
     sway_fwd := f Ptr.sway_fwd;
     sway_aft := f Ptr.sway_aft;
     heave_port_fwd := f Ptr.heave_port_fwd;
     heave_stbd_fwd := f Ptr.heave_stbd_fwd;
     heave_port_aft := f Ptr.heave_port_aft;
     heave_stbd_aft := f Ptr.heave_stbd_aft |}.

(** [*p = c]. *)
Definition assign (p : Ptr.t) (c : T) (u : Unknowns T) : Unknowns T :=
  tabulate (fun q => if Ptr.eq_dec q p then c else deref q u).

(** A residual block: an automatically differentiated functor of one
    residual together with the parameter blocks (each of size one) handed
    to it, in the order of the call. *)
Inductive ResidualBlock : Type :=
| ResidualBlock6 (functor : T -> T -> T -> T -> T -> T -> T)
    (p0 p1 p2 p3 p4 p5 : Ptr.t)
| ResidualBlock8 (functor : T -> T -> T -> T -> T -> T -> T -> T -> T)
    (p0 p1 p2 p3 p4 p5 p6 p7 : Ptr.t)
| ResidualBlock10
    (functor : T -> T -> T -> T -> T -> T -> T -> T -> T -> T -> T)
    (p0 p1 p2 p3 p4 p5 p6 p7 p8 p9 : Ptr.t).

Record Problem : Type := mkProblem {
  residual_blocks : list ResidualBlock;
  lower_bounds : list (Ptr.t * T);
  upper_bounds : list (Ptr.t * T)
}.

Definition empty_problem : Problem :=
  {| residual_blocks := []; lower_bounds := []; upper_bounds := [] |}.

Definition AddResidualBlock (b : ResidualBlock) (p : Problem) : Problem :=
  {| residual_blocks := residual_blocks p ++ [b];
     lower_bounds := lower_bounds p;
     upper_bounds := upper_bounds p |}.

Definition SetParameterLowerBound (q : Ptr.t) (c : T) (p : Problem)
  : Problem :=
  {| residual_blocks := residual_blocks p;
     lower_bounds := (q, c) :: lower_bounds p;
     upper_bounds := upper_bounds p |}.

Definition SetParameterUpperBound (q : Ptr.t) (c : T) (p : Problem)
  : Problem :=
  {| residual_blocks := residual_blocks p;
     lower_bounds := lower_bounds p;
     upper_bounds := (q, c) :: upper_bounds p |}.

(** The most recent bound set on a parameter, if any. *)
Fixpoint bound_of (q : Ptr.t) (l : list (Ptr.t * T)) : option T :=
  match l with
  | [] => None
  | (q', c) :: l' => if Ptr.eq_dec q q' then Some c else bound_of q l'
  end.

(** The value of one residual block at a point. *)
Definition evaluate (b : ResidualBlock) (u : Unknowns T) : T :=
  match b with
  | ResidualBlock6 f p0 p1 p2 p3 p4 p5 =>
      f (deref p0 u) (deref p1 u) (deref p2 u) (deref p3 u) (deref p4 u)
        (deref p5 u)
  | ResidualBlock8 f p0 p1 p2 p3 p4 p5 p6 p7 =>
      f (deref p0 u) (deref p1 u) (deref p2 u) (deref p3 u) (deref p4 u)
        (deref p5 u) (deref p6 u) (deref p7 u)
  | ResidualBlock10 f p0 p1 p2 p3 p4 p5 p6 p7 p8 p9 =>
      f (deref p0 u) (deref p1 u) (deref p2 u) (deref p3 u) (deref p4 u)
        (deref p5 u) (deref p6 u) (deref p7 u) (deref p8 u) (deref p9 u)
  end.

Definition residuals (p : Problem) (u : Unknowns T) : list T :=
  map (fun b => evaluate b u) (residual_blocks p).

(** The objective: half the sum of the squared residuals. *)
Definition cost (p : Problem) (u : Unknowns T) : T :=
  (1 / 2) * fold_right (fun r acc => r * r + acc) 0 (residuals p u).

(** A point is feasible when every bounded parameter is within its bounds. *)
Definition feasible (p : Problem) (u : Unknowns T) : Prop :=
  forall q : Ptr.t,
    (forall c, bound_of q (lower_bounds p) = Some c ->
               s_leb c (deref q u) = true) /\
    (forall c, bound_of q (upper_bounds p) = Some c ->
               s_leb (deref q u) c = true).

(** The constructor's problem set-up, call by call.  The functors read the
    globals at evaluation time, so the problem that one solve sees is this
    one closed over the globals [g] of that moment. *)
Definition problem (g : Globals T) : Problem :=
  fold_left (fun p step => step p)
    [ (* Linear *)
      AddResidualBlock
        (ResidualBlock10 (surge g)
           Ptr.surge_port_hi Ptr.surge_stbd_hi Ptr.surge_port_lo
           Ptr.surge_stbd_lo Ptr.sway_fwd Ptr.sway_aft
           Ptr.heave_port_fwd Ptr.heave_stbd_fwd Ptr.heave_port_aft
           Ptr.heave_stbd_aft);
      AddResidualBlock
        (ResidualBlock10 (sway g)
           Ptr.surge_port_hi Ptr.surge_stbd_hi Ptr.surge_port_lo
           Ptr.surge_stbd_lo Ptr.sway_fwd Ptr.sway_aft
           Ptr.heave_port_fwd Ptr.heave_stbd_fwd Ptr.heave_port_aft
           Ptr.heave_stbd_aft);
      AddResidualBlock
        (ResidualBlock10 (heave g)
           Ptr.surge_port_hi Ptr.surge_stbd_hi Ptr.surge_port_lo
           Ptr.surge_stbd_lo Ptr.sway_fwd Ptr.sway_aft
           Ptr.heave_port_fwd Ptr.heave_stbd_fwd Ptr.heave_stbd_aft
           Ptr.heave_port_aft);
      (* Angular *)
      AddResidualBlock
        (ResidualBlock6 (roll g)
           Ptr.sway_fwd Ptr.sway_aft Ptr.heave_port_fwd Ptr.heave_stbd_fwd
           Ptr.heave_port_aft Ptr.heave_stbd_aft);
      AddResidualBlock
        (ResidualBlock8 (pitch g)
           Ptr.surge_port_hi Ptr.surge_stbd_hi Ptr.surge_port_lo
           Ptr.surge_stbd_lo Ptr.heave_port_fwd Ptr.heave_stbd_fwd
           Ptr.heave_port_aft Ptr.heave_stbd_aft);
      AddResidualBlock
        (ResidualBlock6 (yaw g)
           Ptr.surge_port_hi Ptr.surge_stbd_hi Ptr.surge_port_lo
           Ptr.surge_stbd_lo Ptr.sway_fwd Ptr.sway_aft);
      (* Surge thrusters *)
      SetParameterLowerBound Ptr.surge_port_hi MIN_THRUST;
      SetParameterUpperBound Ptr.surge_port_hi MAX_THRUST;
      SetParameterLowerBound Ptr.surge_stbd_hi MIN_THRUST;
      SetParameterUpperBound Ptr.surge_stbd_hi MAX_THRUST;
      SetParameterLowerBound Ptr.surge_port_lo MIN_THRUST;
      SetParameterUpperBound Ptr.surge_port_lo MAX_THRUST;
      SetParameterLowerBound Ptr.surge_stbd_lo MIN_THRUST;
      SetParameterUpperBound Ptr.surge_stbd_lo MAX_THRUST;
      (* Sway thrusters *)
      SetParameterLowerBound Ptr.sway_fwd MIN_THRUST;
      SetParameterUpperBound Ptr.sway_fwd MAX_THRUST;
      SetParameterLowerBound Ptr.sway_aft MIN_THRUST;
      SetParameterUpperBound Ptr.sway_aft MAX_THRUST;
      (* Heave thrusters *)
      SetParameterLowerBound Ptr.heave_port_fwd MIN_THRUST;
      SetParameterUpperBound Ptr.heave_port_fwd MAX_THRUST;
      SetParameterLowerBound Ptr.heave_stbd_fwd MIN_THRUST;
      SetParameterUpperBound Ptr.heave_stbd_fwd MAX_THRUST;
      SetParameterLowerBound Ptr.heave_port_aft MIN_THRUST;
      SetParameterUpperBound Ptr.heave_port_aft MAX_THRUST;
      SetParameterLowerBound Ptr.heave_stbd_aft MIN_THRUST;
      SetParameterUpperBound Ptr.heave_stbd_aft MAX_THRUST ]
    empty_problem.

(** Solver configuration. *)
Definition options : ceres.Options :=
  {| ceres.max_num_iterations := 100;
     ceres.linear_solver_type := ceres.DENSE_QR |}.

(** *** The controller object and its handlers *)

Record ThrusterController : Type := mkThrusterController {
  globals : Globals T;
  unknowns : Unknowns T;
  thrust : riptide_msgs.ThrustStamped T;
  summary : ceres.Summary;
  (** What has been published on [command/thrust], oldest first. *)
  cmd_pub : list (riptide_msgs.ThrustStamped T)
}.

(** [ceres::Solve] is a routine of the Ceres library, outside the
    repository.  It is a parameter of the controller: from the options, the
    problem and the values that the parameter blocks hold on entry, it
    leaves new values in the parameter blocks and fills in the summary.
    As a function it returns on every input; what one solve does under the
    iteration cap is stated for the solver of the specification, further
    down. *)
Definition Solver : Type :=
  ceres.Options -> Problem -> Unknowns T -> Unknowns T * ceres.Summary.

Section Handlers.

Variable Solve : Solver.

(** The constructor.  [lookupTransform] gives the origin of the transform
    from [/base_link] to the named frame; [uninitialised] stands for what
    the ten force members hold before the first solve (the constructor does
    not set them). *)
Definition ThrusterController_new
  (lookupTransform : string -> tf.Vector3 T)
  (uninitialised : Unknowns T) : ThrusterController :=
  let tf_surge0 := lookupTransform "/surge_port_hi_link"%string in
  let tf_surge1 := lookupTransform "/surge_stbd_hi_link"%string in
  let tf_surge2 := lookupTransform "/surge_port_lo_link"%string in
  let tf_surge3 := lookupTransform "/surge_stbd_lo_link"%string in
  let tf_sway0 := lookupTransform "/sway_fwd_link"%string in
  let tf_sway1 := lookupTransform "/sway_aft_link"%string in
  let tf_heave0 := lookupTransform "/heave_port_fwd_link"%string in
  let tf_heave1 := lookupTransform "/heave_stbd_fwd_link"%string in
  let tf_heave2 := lookupTransform "/heave_port_aft_link"%string in
  let tf_heave3 := lookupTransform "/heave_stbd_aft_link"%string in
  let tf_imu := lookupTransform "/imu_one_link"%string in
  {| globals :=
       {| rotation_matrix := setIdentity;
          ang_v := setZero;
          cmdSurge := 0;
          cmdSway := 0;
          cmdHeave := 0;
          cmdRoll := 0;
          cmdPitch := 0;
          cmdYaw := 0;
          v_imu := get_transform tf_imu;
          pos_surge_port_hi := get_transform tf_surge0;
          pos_surge_stbd_hi := get_transform tf_surge1;
          pos_surge_port_lo := get_transform tf_surge2;
          pos_surge_stbd_lo := get_transform tf_surge3;
          pos_sway_fwd := get_transform tf_sway0;
          pos_sway_aft := get_transform tf_sway1;
          pos_heave_port_fwd := get_transform tf_heave0;
          pos_heave_stbd_fwd := get_transform tf_heave1;
          pos_heave_port_aft := get_transform tf_heave2;
          pos_heave_stbd_aft := get_transform tf_heave3 |};
     unknowns := uninitialised;
     thrust :=
       {| riptide_msgs.frame_id := "base_link"%string;
          riptide_msgs.stamp := 0%Z;
          riptide_msgs.force :=
            riptide_msgs.mkThrust 0 0 0 0 0 0 0 0 0 0 |};
     summary := ceres.default_summary;
     cmd_pub := [] |}.

(** The inertial handler. *)
Definition state (msg : sensor_msgs.Imu T) (c : ThrusterController)
  : ThrusterController :=
  let q := quaternionMsgToTF (sensor_msgs.orientation msg) in
  let g := globals c in
  {| globals :=
       {| rotation_matrix := setRotation (normalized q);
          ang_v := vector3MsgToTF (sensor_msgs.angular_velocity msg);
          cmdSurge := cmdSurge g;
          cmdSway := cmdSway g;
          cmdHeave := cmdHeave g;
          cmdRoll := cmdRoll g;
          cmdPitch := cmdPitch g;
          cmdYaw := cmdYaw g;
          v_imu := v_imu g;
          pos_surge_stbd_hi := pos_surge_stbd_hi g;
          pos_surge_port_hi := pos_surge_port_hi g;
          pos_surge_port_lo := pos_surge_port_lo g;
          pos_surge_stbd_lo := pos_surge_stbd_lo g;
          pos_sway_fwd := pos_sway_fwd g;
          pos_sway_aft := pos_sway_aft g;
          pos_heave_port_aft := pos_heave_port_aft g;
          pos_heave_stbd_aft := pos_heave_stbd_aft g;
          pos_heave_stbd_fwd := pos_heave_stbd_fwd g;
          pos_heave_port_fwd := pos_heave_port_fwd g |};
     unknowns := unknowns c;
     thrust := thrust c;
     summary := summary c;
     cmd_pub := cmd_pub c |}.

(** The first six assignments of [callback]: the command is stored. *)
Definition store_command (a : geometry_msgs.Accel T) (g : Globals T)
  : Globals T :=
  {| rotation_matrix := rotation_matrix g;
     ang_v := ang_v g;
     cmdSurge := geometry_msgs.x (geometry_msgs.linear a);
     cmdSway := geometry_msgs.y (geometry_msgs.linear a);
     cmdHeave := geometry_msgs.z (geometry_msgs.linear a);
     cmdRoll := geometry_msgs.x (geometry_msgs.angular a);
     cmdPitch := geometry_msgs.y (geometry_msgs.angular a);
     cmdYaw := geometry_msgs.z (geometry_msgs.angular a);
     v_imu := v_imu g;
     pos_surge_stbd_hi := pos_surge_stbd_hi g;
     pos_surge_port_hi := pos_surge_port_hi g;
     pos_surge_port_lo := pos_surge_port_lo g;
     pos_surge_stbd_lo := pos_surge_stbd_lo g;
     pos_sway_fwd := pos_sway_fwd g;
     pos_sway_aft := pos_sway_aft g;
     pos_heave_port_aft := pos_heave_port_aft g;
     pos_heave_stbd_aft := pos_heave_stbd_aft g;
     pos_heave_stbd_fwd := pos_heave_stbd_fwd g;
     pos_heave_port_fwd := pos_heave_port_fwd g |}.

(** The forced initial guesses. *)
Definition initial_guess : Unknowns T :=
  {| surge_stbd_hi := 0;
     surge_port_hi := 0;
     surge_port_lo := 0;
     surge_stbd_lo := 0;
     sway_fwd := 0;
     sway_aft := 0;
     heave_port_aft := 0;
     heave_stbd_aft := 0;
     heave_stbd_fwd := 0;
     heave_port_fwd := 0 |}.

(** The stamped thrust message built from the force members. *)
Definition thrust_message (frame : string) (now : Time) (u : Unknowns T)
  : riptide_msgs.ThrustStamped T :=
  {| riptide_msgs.frame_id := frame;
     riptide_msgs.stamp := now;
     riptide_msgs.force :=
       {| riptide_msgs.surge_stbd_hi := surge_stbd_hi u;
          riptide_msgs.surge_port_hi := surge_port_hi u;
          riptide_msgs.surge_port_lo := surge_port_lo u;
          riptide_msgs.surge_stbd_lo := surge_stbd_lo u;
          riptide_msgs.sway_fwd := sway_fwd u;
          riptide_msgs.sway_aft := sway_aft u;
          riptide_msgs.heave_port_aft := heave_port_aft u;
          riptide_msgs.heave_stbd_aft := heave_stbd_aft u;
          riptide_msgs.heave_stbd_fwd := heave_stbd_fwd u;
          riptide_msgs.heave_port_fwd := heave_port_fwd u |} |}.

(** The command handler: store the command, reset the unknowns, solve,
    stamp and publish.  The summary is stored and never inspected.  (The
    debug print of four thruster positions goes to the standard output and
    is left out.) *)
Definition callback (a : geometry_msgs.Accel T) (now : Time)
  (c : ThrusterController) : ThrusterController :=
  let g := store_command a (globals c) in
  let solved := Solve options (problem g) initial_guess in
  let msg :=
    thrust_message (riptide_msgs.frame_id (thrust c)) now (fst solved) in
  {| globals := g;
     unknowns := fst solved;
     thrust := msg;
     summary := snd solved;
     cmd_pub := cmd_pub c ++ [msg] |}.

End Handlers.

(** *** What the controller relies on from the solver

    Each clause is a documented property of the library's trust-region
    minimiser; a theorem below names the clauses it uses. *)

(** Bounds are hard constraints: from a feasible start, the point left in
    the parameter blocks is feasible. *)
Definition respects_bounds (Solve : Solver) : Prop :=
  forall o p u, feasible p u -> feasible p (fst (Solve o p u)).

(** A scalar that compares equal to zero: at binary64, +0 or -0. *)
Definition numerically_zero (c : T) : bool := s_leb c 0 && s_leb 0 c.

(** A start at which every residual vanishes has a zero gradient: the
    minimiser stops at once and leaves the parameter blocks as they are. *)
Definition stops_at_vanishing_residuals (Solve : Solver) : Prop :=
  forall o p u,
    forallb numerically_zero (residuals p u) = true -> fst (Solve o p u) = u.

(** A parameter that no residual depends on has a zero Jacobian column and
    a zero gradient entry, so no step moves it. *)
Definition leaves_unused_parameters (Solve : Solver) : Prop :=
  forall o p u q,
    (forall v c, residuals p (assign q c v) = residuals p v) ->
    deref q (fst (Solve o p u)) = deref q u.

(** *** A small solver

    A bounded coordinate search: in each of [max_num_iterations] sweeps,
    every parameter is tried one step up and one step down, clamped to its
    bounds, and a move is kept only when it lowers the cost; the step
    starts at eight and is halved after each sweep.  It is not the
    library's algorithm; it shows that the clauses on bounds and on unused
    parameters can be met together and lets the controller run on concrete
    inputs. *)

Definition clamp (p : Problem) (q : Ptr.t) (c : T) : T :=
  let c1 :=
    match bound_of q (lower_bounds p) with
    | Some l => if s_ltb c l then l else c
    | None => c
    end in
  match bound_of q (upper_bounds p) with
  | Some h => if s_ltb h c1 then h else c1
  | None => c1
  end.

Definition try_move (p : Problem) (d : T) (u : Unknowns T) (q : Ptr.t)
  : Unknowns T :=
  let v := assign q (clamp p q (deref q u + d)) u in
  if s_ltb (cost p v) (cost p u) then v else u.

Definition sweep (p : Problem) (d : T) (u : Unknowns T) : Unknowns T :=
  fold_left (fun w q => try_move p (- d) (try_move p d w q) q) Ptr.all u.

Fixpoint minimize (p : Problem) (n : nat) (d : T) (u : Unknowns T)
  : Unknowns T :=
  match n with
  | O => u
  | S n' => minimize p n' (d / 2) (sweep p d u)
  end.

Definition coordinate_search : Solver :=
  fun o p u =>
    (minimize p (ceres.max_num_iterations o) (s_of_Z 8) u,
     {| ceres.termination_type := ceres.NO_CONVERGENCE;
        ceres.num_iterations := ceres.max_num_iterations o |}).

(** *** The solver of the specification

    Modelled from the spec: [ceres::Solve] itself is not in the repository.
    The specification asks for a bounded-iteration least-squares method
    under a hard cap on the iteration count, which clips to the bounds and,
    when it has not converged within the cap, returns the best point found
    instead of blocking or failing.  The numerical method of one iteration
    and the convergence test are left open: [propose] gives the candidate
    of one iteration, or nothing when the step cannot be computed, and
    [converged] is the test. *)

Section BoundedMinimizer.

Variable propose : Problem -> Unknowns T -> option (Unknowns T).
Variable converged : Problem -> Unknowns T -> bool.

(** Every parameter clipped to its bounds. *)
Definition project (p : Problem) (u : Unknowns T) : Unknowns T :=
  tabulate (fun q => clamp p q (deref q u)).

(** The point kept once the candidate [y] has been examined at [x]. *)
Definition better (p : Problem) (x y : Unknowns T) : Unknowns T :=
  if s_ltb (cost p y) (cost p x) then y else x.

(** [fuel] iterations are left, [done] have been performed. *)
Fixpoint minimizer_loop (p : Problem) (fuel done : nat) (x : Unknowns T)
  : Unknowns T * ceres.Summary :=
  match fuel with
  | O =>
      (x, {| ceres.termination_type := ceres.NO_CONVERGENCE;
             ceres.num_iterations := done |})
  | S fuel' =>
      if converged p x
      then (x, {| ceres.termination_type := ceres.CONVERGENCE;
                  ceres.num_iterations := done |})
      else
        match propose p x with
        | None =>
            (x, {| ceres.termination_type := ceres.FAILURE;
                   ceres.num_iterations := done |})
        | Some y => minimizer_loop p fuel' (S done) (better p x (project p y))
        end
  end.

Definition bounded_minimizer : Solver :=
  fun o p u => minimizer_loop p (ceres.max_num_iterations o) 0 u.


End BoundedMinimizer.

(** The convergence test of the sample instance: every residual vanishes. *)
Definition vanishing (p : Problem) (u : Unknowns T) : bool :=
  forallb numerically_zero (residuals p u).

(** A sample instance: each iteration proposes one coordinate sweep of
    unit step. *)
Definition sample_minimizer : Solver :=
  bounded_minimizer (fun p x => Some (sweep p 1 x)) vanishing.

(** The same iteration with a test that never reports convergence. *)
Definition restless_minimizer : Solver :=
  bounded_minimizer (fun p x => Some (sweep p 1 x)) (fun _ _ => false).

End Controller.

(** ** Vocabulary of the properties *)

Section Vocabulary.

Context {T : Type} `{Scalar T}.
Local Open Scope scalar_scope.

(** The field of the message that carries the force of a thruster. *)
Definition force_of (q : Ptr.t) (m : riptide_msgs.Thrust T) : T :=
  match q with
  | Ptr.surge_port_hi => riptide_msgs.surge_port_hi m
  | Ptr.surge_stbd_hi => riptide_msgs.surge_stbd_hi m
  | Ptr.surge_port_lo => riptide_msgs.surge_port_lo m
  | Ptr.surge_stbd_lo => riptide_msgs.surge_stbd_lo m
  | Ptr.sway_fwd => riptide_msgs.sway_fwd m
  | Ptr.sway_aft => riptide_msgs.sway_aft m
  | Ptr.heave_port_fwd => riptide_msgs.heave_port_fwd m
  | Ptr.heave_stbd_fwd => riptide_msgs.heave_stbd_fwd m
  | Ptr.heave_port_aft => riptide_msgs.heave_port_aft m
  | Ptr.heave_stbd_aft => riptide_msgs.heave_stbd_aft m
  end.

(** The message published by one command event. *)
Definition published (Solve : Solver) (a : geometry_msgs.Accel T)
  (now : Time) (c : ThrusterController) : riptide_msgs.ThrustStamped T :=
  thrust (callback Solve a now c).

(** The thruster positions that the equations can read. *)
Definition geometry (g : Globals T) : list (vector.t T) :=
  [ pos_surge_stbd_hi g; pos_surge_port_hi g; pos_surge_port_lo g;
    pos_surge_stbd_lo g; pos_sway_fwd g; pos_sway_aft g;
    pos_heave_port_aft g; pos_heave_stbd_aft g; pos_heave_stbd_fwd g;
    pos_heave_port_fwd g ].

(** The command with all six components zero. *)
Definition zero_command : geometry_msgs.Accel T :=
  geometry_msgs.mkAccel
    (geometry_msgs.mkVector3 (s_of_Z 0) (s_of_Z 0) (s_of_Z 0))
    (geometry_msgs.mkVector3 (s_of_Z 0) (s_of_Z 0) (s_of_Z 0)).

(** The six thrusters that no equation reads. *)
Definition unused_thrusters : list Ptr.t :=
  [ Ptr.surge_port_hi; Ptr.surge_stbd_hi; Ptr.sway_fwd; Ptr.sway_aft;
    Ptr.heave_port_aft; Ptr.heave_stbd_aft ].

(** The point [a * u + (1 - a) * v] of the force space. *)
Definition affine_combination (a : T) (u v : Unknowns T) : Unknowns T :=
  tabulate (fun q => a * deref q u + (s_of_Z 1 - a) * deref q v).

Definition dot3 (a b : tf.Vector3 T) : T :=
  tf.x a * tf.x b + tf.y a * tf.y b + tf.z a * tf.z b.

(** Translational model in the words of the specification: each thruster
    pushes along a fixed mounting direction of the body frame, and the net
    force along axis [i] is the sum, over the ten thrusters, of the force
    times the projection of that direction on the axis (row [i] of the
    rotation matrix). *)
Definition net_force_over_all_thrusters (mount : Ptr.t -> tf.Vector3 T)
  (m : tf.Matrix3x3 T) (i : nat) (u : Unknowns T) : T :=
  fold_right (fun q acc => dot3 (getRow m i) (mount q) * deref q u + acc)
    (s_of_Z 0) Ptr.all.

(** The three linear residuals are that net force over the mass, minus the
    command. *)
Definition translational_model (mount : Ptr.t -> tf.Vector3 T) : Prop :=
  forall (g : Globals T) (u : Unknowns T),
    nth 0 (residuals (problem g) u) (s_of_Z 0) =
      net_force_over_all_thrusters mount (rotation_matrix g) 0 u / MASS
      - cmdSurge g /\
    nth 1 (residuals (problem g) u) (s_of_Z 0) =
      net_force_over_all_thrusters mount (rotation_matrix g) 1 u / MASS
      - cmdSway g /\
    nth 2 (residuals (problem g) u) (s_of_Z 0) =
      net_force_over_all_thrusters mount (rotation_matrix g) 2 u / MASS
      - cmdHeave g.

(** The directions that the equations in fact use: the two low surge
    thrusters push along x, the two forward heave thrusters along z, and
    the other six thrusters do not enter. *)
Definition mount_in_equations (q : Ptr.t) : tf.Vector3 T :=
  match q with
  | Ptr.surge_port_lo | Ptr.surge_stbd_lo =>
      tf.mkVector3 (s_of_Z 1) (s_of_Z 0) (s_of_Z 0)
  | Ptr.heave_port_fwd | Ptr.heave_stbd_fwd =>
      tf.mkVector3 (s_of_Z 0) (s_of_Z 0) (s_of_Z 1)
  | _ => tf.mkVector3 (s_of_Z 0) (s_of_Z 0) (s_of_Z 0)
  end.

(** A NaN is the one scalar that is not below or equal to itself. *)
Definition is_nan (c : T) : bool := negb (s_leb c c).

Definition accel_has_nan (a : geometry_msgs.Accel T) : bool :=
  is_nan (geometry_msgs.x (geometry_msgs.linear a))
  || is_nan (geometry_msgs.y (geometry_msgs.linear a))
  || is_nan (geometry_msgs.z (geometry_msgs.linear a))
  || is_nan (geometry_msgs.x (geometry_msgs.angular a))
  || is_nan (geometry_msgs.y (geometry_msgs.angular a))
  || is_nan (geometry_msgs.z (geometry_msgs.angular a)).

Definition imu_has_nan (m : sensor_msgs.Imu T) : bool :=
  is_nan (geometry_msgs.qx (sensor_msgs.orientation m))
  || is_nan (geometry_msgs.qy (sensor_msgs.orientation m))
  || is_nan (geometry_msgs.qz (sensor_msgs.orientation m))
  || is_nan (geometry_msgs.qw (sensor_msgs.orientation m))
  || is_nan (geometry_msgs.x (sensor_msgs.angular_velocity m))
  || is_nan (geometry_msgs.y (sensor_msgs.angular_velocity m))
  || is_nan (geometry_msgs.z (sensor_msgs.angular_velocity m)).




(** The nine entries of a matrix, row by row. *)
Definition matrix_entries (m : tf.Matrix3x3 T) : list T :=
  [ tf.x (tf.row0 m); tf.y (tf.row0 m); tf.z (tf.row0 m);
    tf.x (tf.row1 m); tf.y (tf.row1 m); tf.z (tf.row1 m);
    tf.x (tf.row2 m); tf.y (tf.row2 m); tf.z (tf.row2 m) ].

Definition vector_entries (v : tf.Vector3 T) : list T :=
  [ tf.x v; tf.y v; tf.z v ].

Definition quaternion_entries (q : geometry_msgs.Quaternion T) : list T :=
  [ geometry_msgs.qx q; geometry_msgs.qy q; geometry_msgs.qz q;
    geometry_msgs.qw q ].

(** The six components of a command. *)
Definition command_entries (a : geometry_msgs.Accel T) : list T :=
  [ geometry_msgs.x (geometry_msgs.linear a);
    geometry_msgs.y (geometry_msgs.linear a);
    geometry_msgs.z (geometry_msgs.linear a);
    geometry_msgs.x (geometry_msgs.angular a);
    geometry_msgs.y (geometry_msgs.angular a);
    geometry_msgs.z (geometry_msgs.angular a) ].

(** The position coordinates that the angular equations read. *)
Definition coordinates_read (g : Globals T) : list T :=
  [ vector.y (pos_heave_port_fwd g); vector.y (pos_heave_stbd_fwd g);
    vector.z (pos_surge_port_lo g); vector.z (pos_surge_stbd_lo g);
    vector.x (pos_heave_port_fwd g); vector.x (pos_heave_stbd_fwd g);
    vector.y (pos_surge_port_lo g); vector.y (pos_surge_stbd_lo g) ].

(** *** Sample inputs *)

(** A geometry table: frame name and origin, in tenths of a metre. *)
Definition sample_frames : list (string * (Z * Z * Z)) :=
  [ ("/surge_port_hi_link", (-3, 2, 1)); ("/surge_stbd_hi_link", (-3, -2, 1));
    ("/surge_port_lo_link", (-3, 2, -1));
    ("/surge_stbd_lo_link", (-3, -2, -1));
    ("/sway_fwd_link", (4, 0, 0)); ("/sway_aft_link", (-4, 0, 0));
    ("/heave_port_fwd_link", (3, 2, 0)); ("/heave_stbd_fwd_link", (3, -2, 0));
    ("/heave_port_aft_link", (-3, 2, 0));
    ("/heave_stbd_aft_link", (-3, -2, 0));
    ("/imu_one_link", (1, 0, 0)) ]%string%Z.

Fixpoint find_frame (frame : string) (l : list (string * (Z * Z * Z)))
  : Z * Z * Z :=
  match l with
  | [] => (0, 0, 0)%Z
  | (name, o) :: l' => if String.eqb frame name then o else find_frame frame l'
  end.

Definition sample_lookupTransform (frame : string) : tf.Vector3 T :=
  let '(a, b, c) := find_frame frame sample_frames in
  tf.mkVector3 (decimal a 1) (decimal b 1) (decimal c 1).

(** A controller fresh from its constructor; the force members hold an
    arbitrary value (seven) until the first solve. *)
Definition sample_controller : ThrusterController :=
  ThrusterController_new sample_lookupTransform (tabulate (fun _ => s_of_Z 7)).

(** Surge at [m] metres per second squared, all other channels zero. *)
Definition surge_command (m : Z) : geometry_msgs.Accel T :=
  geometry_msgs.mkAccel
    (geometry_msgs.mkVector3 (s_of_Z m) (s_of_Z 0) (s_of_Z 0))
    (geometry_msgs.mkVector3 (s_of_Z 0) (s_of_Z 0) (s_of_Z 0)).

(** An inertial message with the given orientation and angular velocity. *)
Definition sample_imu (qx qy qz qw wx wy wz : T) : sensor_msgs.Imu T :=
  sensor_msgs.mkImu
    (geometry_msgs.mkQuaternion qx qy qz qw)
    (geometry_msgs.mkVector3 wx wy wz)
    (geometry_msgs.mkVector3 (s_of_Z 0) (s_of_Z 0) (s_of_Z 0)).

(** Zero divided by zero: at binary64, a NaN. *)
Definition zero_over_zero : T := s_of_Z 0 / s_of_Z 0.

(** A command whose surge component is zero over zero. *)
Definition nan_command : geometry_msgs.Accel T :=
  geometry_msgs.mkAccel
    (geometry_msgs.mkVector3 zero_over_zero (s_of_Z 0) (s_of_Z 0))
    (geometry_msgs.mkVector3 (s_of_Z 0) (s_of_Z 0) (s_of_Z 0)).

End Vocabulary.

(** ** Vocabulary at binary64 *)

(** Every scalar of the list compares equal to zero (+0 or -0). *)
Definition all_zero (l : list PrimFloat.float) : bool :=
  forallb PrimFloat.is_zero l.

(** No scalar of the list is a NaN or an infinity. *)
Definition all_finite (l : list PrimFloat.float) : bool :=
  forallb PrimFloat.is_finite l.


(** The same classes on the specification side of the float axioms. *)
Definition fzero (c : PrimFloat.float) : Prop :=
  exists s, FloatOps.Prim2SF c = SpecFloat.S754_zero s.

Definition ffinite (c : PrimFloat.float) : Prop :=
  match FloatOps.Prim2SF c with
  | SpecFloat.S754_zero _ | SpecFloat.S754_finite _ _ _ => True
  | _ => False
  end.

Definition fnonzero (c : PrimFloat.float) : Prop :=
  match FloatOps.Prim2SF c with
  | SpecFloat.S754_finite _ _ _ => True
  | _ => False
  end.

(** A geometry table in which every origin is zero over zero. *)
Definition nan_lookupTransform (frame : string) : tf.Vector3 PrimFloat.float :=
  tf.mkVector3 zero_over_zero zero_over_zero zero_over_zero.

(** ** The event loop

    [main] builds the controller and calls [loop], which hands control to
    the single-threaded dispatcher: the messages that arrive on
    [state/imu] and [command/accel] are delivered one at a time, each
    handler running to completion before the next message.  A run is the
    sequence of messages delivered until shutdown; a command event carries
    the clock value that its handler reads. *)

Section EventLoop.

Context {T : Type} `{Scalar T}.
Local Open Scope scalar_scope.

Inductive Event : Type :=
| ImuEvent (msg : sensor_msgs.Imu T)
| AccelEvent (a : geometry_msgs.Accel T) (now : Time).

Variable Solve : @Solver T.

Definition dispatch (e : Event) (c : @ThrusterController T)
  : @ThrusterController T :=
  match e with
  | ImuEvent msg => state msg c
  | AccelEvent a now => callback Solve a now c
  end.

Definition loop (events : list Event) (c : @ThrusterController T)
  : @ThrusterController T :=
  fold_left (fun c' e => dispatch e c') events c.

Definition main (lookupTransform : string -> tf.Vector3 T)
  (uninitialised : Unknowns T) (events : list Event) : @ThrusterController T :=
  loop events (ThrusterController_new lookupTransform uninitialised).

(** The clock values of the command events of a run, in order. *)
Fixpoint command_times (events : list Event) : list Time :=
  match events with
  | [] => []
  | ImuEvent _ :: l => command_times l
  | AccelEvent _ now :: l => now :: command_times l
  end.

(** The last inertial message of a run, if any. *)
Definition latest_imu (events : list Event) : option (sensor_msgs.Imu T) :=
  fold_left
    (fun acc e => match e with ImuEvent m => Some m | AccelEvent _ _ => acc end)
    events None.

(** The last command of a run, if any. *)
Definition latest_command (events : list Event)
  : option (geometry_msgs.Accel T) :=
  fold_left
    (fun acc e => match e with ImuEvent _ => acc | AccelEvent a _ => Some a end)
    events None.

(** The frames of the ten thrusters, in the order of [geometry]. *)
Definition thruster_frames : list string :=
  [ "/surge_stbd_hi_link"; "/surge_port_hi_link"; "/surge_port_lo_link";
    "/surge_stbd_lo_link"; "/sway_fwd_link"; "/sway_aft_link";
    "/heave_port_aft_link"; "/heave_stbd_aft_link"; "/heave_stbd_fwd_link";
    "/heave_port_fwd_link" ]%string.

(** The command held in the six command globals. *)
Definition stored_command (g : Globals T) : geometry_msgs.Accel T :=
  geometry_msgs.mkAccel
    (geometry_msgs.mkVector3 (cmdSurge g) (cmdSway g) (cmdHeave g))
    (geometry_msgs.mkVector3 (cmdRoll g) (cmdPitch g) (cmdYaw g)).

End EventLoop.

(** ** Facts that hold over every scalar type *)

Section Generic.

Context {T : Type} `{Scalar T}.

Lemma deref_tabulate (f : Ptr.t -> T) (q : Ptr.t) :
  deref q (tabulate f) = f q.
Proof. destruct q; reflexivity. Qed.

Lemma deref_assign (p q : Ptr.t) (c : T) (u : Unknowns T) :
  deref q (assign p c u) = if Ptr.eq_dec q p then c else deref q u.
Proof. unfold assign. apply deref_tabulate. Qed.

Lemma deref_assign_same (p : Ptr.t) (c : T) (u : Unknowns T) :
  deref p (assign p c u) = c.
Proof.
  rewrite deref_assign. destruct (Ptr.eq_dec p p); congruence.
Qed.

Lemma deref_assign_other (p q : Ptr.t) (c : T) (u : Unknowns T) :
  q <> p -> deref q (assign p c u) = deref q u.
Proof.
  intros Hne. rewrite deref_assign. destruct (Ptr.eq_dec q p); congruence.
Qed.

(** The constructor bounds each of the ten parameters, below by
    [MIN_THRUST] and above by [MAX_THRUST]. *)
Lemma problem_lower_bound (g : Globals T) (q : Ptr.t) :
  bound_of q (lower_bounds (problem g)) = Some MIN_THRUST.
Proof. destruct q; reflexivity. Qed.

Lemma problem_upper_bound (g : Globals T) (q : Ptr.t) :
  bound_of q (upper_bounds (problem g)) = Some MAX_THRUST.
Proof. destruct q; reflexivity. Qed.

(** The six residuals of the problem, in the order of the blocks. *)
Lemma problem_residuals (g : Globals T) (u : Unknowns T) :
  residuals (problem g) u =
  [ surge g (surge_port_hi u) (surge_stbd_hi u) (surge_port_lo u)
      (surge_stbd_lo u) (sway_fwd u) (sway_aft u) (heave_port_fwd u)
      (heave_stbd_fwd u) (heave_port_aft u) (heave_stbd_aft u);
    sway g (surge_port_hi u) (surge_stbd_hi u) (surge_port_lo u)
      (surge_stbd_lo u) (sway_fwd u) (sway_aft u) (heave_port_fwd u)
      (heave_stbd_fwd u) (heave_port_aft u) (heave_stbd_aft u);
    heave g (surge_port_hi u) (surge_stbd_hi u) (surge_port_lo u)
      (surge_stbd_lo u) (sway_fwd u) (sway_aft u) (heave_port_fwd u)
      (heave_stbd_fwd u) (heave_stbd_aft u) (heave_port_aft u);
    roll g (sway_fwd u) (sway_aft u) (heave_port_fwd u) (heave_stbd_fwd u)
      (heave_port_aft u) (heave_stbd_aft u);
    pitch g (surge_port_hi u) (surge_stbd_hi u) (surge_port_lo u)
      (surge_stbd_lo u) (heave_port_fwd u) (heave_stbd_fwd u)
      (heave_port_aft u) (heave_stbd_aft u);
    yaw g (surge_port_hi u) (surge_stbd_hi u) (surge_port_lo u)
      (surge_stbd_lo u) (sway_fwd u) (sway_aft u) ].
Proof. reflexivity. Qed.

(** Every field of the message is copied from the member of its name. *)
Lemma force_of_thrust_message frame now (u : Unknowns T) (q : Ptr.t) :
  force_of q (riptide_msgs.force (thrust_message frame now u)) = deref q u.
Proof. destruct q; reflexivity. Qed.

Lemma callback_publishes_once (Solve : Solver) a now (c : ThrusterController) :
  cmd_pub (callback Solve a now c) = cmd_pub c ++ [published Solve a now c].
Proof. reflexivity. Qed.

Lemma callback_unknowns (Solve : Solver) a now (c : ThrusterController) :
  unknowns (callback Solve a now c) =
  fst (Solve options (problem (store_command a (globals c))) initial_guess).
Proof. reflexivity. Qed.

Lemma published_force (Solve : Solver) a now (c : ThrusterController) q :
  force_of q (riptide_msgs.force (published Solve a now c)) =
  deref q (unknowns (callback Solve a now c)).
Proof. unfold published. cbn [callback thrust]. apply force_of_thrust_message. Qed.

(** The problem of a solve depends on the globals only through the rotation
    matrix, the angular velocity, the thruster positions and the command. *)
Lemma problem_of_equal_inputs (a : geometry_msgs.Accel T) (g1 g2 : Globals T) :
  rotation_matrix g1 = rotation_matrix g2 ->
  ang_v g1 = ang_v g2 ->
  geometry g1 = geometry g2 ->
  problem (store_command a g1) = problem (store_command a g2).
Proof.
  destruct g1, g2. unfold geometry. cbn.
  intros Hr Hw Hg. injection Hg as -> -> -> -> -> -> -> -> -> ->.
  subst. reflexivity.
Qed.

(** No residual reads any of the six unused unknowns. *)
Lemma residuals_ignore_unused (g : Globals T) (q : Ptr.t) :
  In q unused_thrusters ->
  forall v c, residuals (problem g) (assign q c v) = residuals (problem g) v.
Proof.
  intros Hq v c. rewrite !problem_residuals.
  cbn in Hq.
  repeat (destruct Hq as [<-|Hq]; [reflexivity|]).
  contradiction.
Qed.

(** C3: two command events with the same command, the same rotation matrix
    and angular velocity and the same thruster positions publish the same
    ten forces, whatever the force members, the stored command, the last
    message or the clock were before: each solve starts from the problem of
    the current inputs and from the all-zero guess. *)
Theorem C3_identical_inputs_identical_forces
  (Solve : Solver) (a : geometry_msgs.Accel T) (now1 now2 : Time)
  (c1 c2 : ThrusterController) :
  rotation_matrix (globals c1) = rotation_matrix (globals c2) ->
  ang_v (globals c1) = ang_v (globals c2) ->
  geometry (globals c1) = geometry (globals c2) ->
  riptide_msgs.force (published Solve a now1 c1) =
  riptide_msgs.force (published Solve a now2 c2).
Proof.
  intros Hr Hw Hg. unfold published, callback. cbn [thrust].
  rewrite (problem_of_equal_inputs a Hr Hw Hg). reflexivity.
Qed.

(** C9: the forces published for surge_port_hi, surge_stbd_hi, sway_fwd,
    sway_aft, heave_port_aft and heave_stbd_aft are zero on every command
    event: no residual expression reads them, every solve starts them at
    zero, and the solver does not move a parameter that no residual
    depends on. *)
Theorem C9_unused_thrusters_published_zero
  (Solve : Solver) (HS : leaves_unused_parameters Solve)
  (a : geometry_msgs.Accel T) (now : Time) (c : ThrusterController)
  (q : Ptr.t) :
  In q unused_thrusters ->
  force_of q (riptide_msgs.force (published Solve a now c)) = s_of_Z 0.
Proof.
  intros Hq. rewrite published_force, callback_unknowns.
  rewrite (HS _ _ _ q (residuals_ignore_unused _ Hq)).
  cbn in Hq.
  repeat (destruct Hq as [<-|Hq]; [reflexivity|]).
  contradiction.
Qed.

End Generic.

(** ** The controller over the real numbers *)

Local Open Scope R_scope.

Ltac to_R :=
  cbv beta iota delta
    [s_of_Z s_add s_sub s_mul s_div s_opp s_sqrt s_abs s_ltb s_leb Scalar_R]
    in *.

Lemma leb_R (a b : R) : s_leb a b = true <-> a <= b.
Proof. to_R. destruct (Rle_dec a b); split; intros; congruence || lra. Qed.

Lemma ltb_R_true (a b : R) : s_ltb a b = true -> a < b.
Proof. to_R. destruct (Rlt_dec a b); intros; congruence || lra. Qed.

Lemma ltb_R_false (a b : R) : s_ltb a b = false -> b <= a.
Proof. to_R. destruct (Rlt_dec a b); intros; congruence || lra. Qed.

Lemma ltb_R_ge (a b : R) : b <= a -> s_ltb a b = false.
Proof. to_R. destruct (Rlt_dec a b); intros; congruence || lra. Qed.

Lemma MIN_THRUST_R : @MIN_THRUST R _ = -5.
Proof. reflexivity. Qed.

Lemma MAX_THRUST_R : @MAX_THRUST R _ = 5.
Proof. reflexivity. Qed.

Lemma MASS_R : @MASS R _ = 3447940950 / 100000000.
Proof. reflexivity. Qed.

Lemma Ixx_R : @Ixx R _ = 1335 / 1000.
Proof. reflexivity. Qed.

Lemma Iyy_R : @Iyy R _ = 1501 / 1000.
Proof. reflexivity. Qed.

Lemma Izz_R : @Izz R _ = 6189 / 10000.
Proof. reflexivity. Qed.

Lemma MASS_nonzero : @MASS R _ <> 0.
Proof. rewrite MASS_R. lra. Qed.

Lemma Ixx_nonzero : @Ixx R _ <> 0.
Proof. rewrite Ixx_R. lra. Qed.

Lemma Iyy_nonzero : @Iyy R _ <> 0.
Proof. rewrite Iyy_R. lra. Qed.

Lemma Izz_nonzero : @Izz R _ <> 0.
Proof. rewrite Izz_R. lra. Qed.

(** The start of every solve is feasible: zero lies between the limits. *)
Lemma initial_guess_feasible (g : Globals R) :
  feasible (problem g) initial_guess.
Proof.
  intro q. rewrite problem_lower_bound, problem_upper_bound.
  split; intros c Hc; injection Hc as <-; apply leb_R;
    rewrite ?MIN_THRUST_R, ?MAX_THRUST_R; destruct q; cbn; lra.
Qed.

(** *** The coordinate search meets the clauses on bounds and on unused
    parameters *)

Section CoordinateSearch.

Variable p : @Problem R.

Lemma clamp_within (q : Ptr.t) (c : R) (u : Unknowns R) :
  feasible p u ->
  (forall l, bound_of q (lower_bounds p) = Some l -> l <= clamp p q c) /\
  (forall h, bound_of q (upper_bounds p) = Some h -> clamp p q c <= h).
Proof.
  intros Hf. destruct (Hf q) as [Hlo Hhi]. unfold clamp.
  destruct (bound_of q (lower_bounds p)) as [l|];
    destruct (bound_of q (upper_bounds p)) as [h|];
    try (specialize (Hlo l eq_refl); apply leb_R in Hlo);
    try (specialize (Hhi h eq_refl); apply leb_R in Hhi);
    split; intros b Hb; try discriminate; injection Hb as <-;
    repeat match goal with
           | |- context [s_ltb ?a ?b] =>
               let E := fresh "E" in
               destruct (s_ltb a b) eqn:E;
               [apply ltb_R_true in E | apply ltb_R_false in E]
           end; lra.
Qed.

Lemma try_move_feasible (d : R) (u : Unknowns R) (q : Ptr.t) :
  feasible p u -> feasible p (try_move p d u q).
Proof.
  intros Hf. unfold try_move.
  destruct (s_ltb _ _); [|exact Hf].
  intro q'. rewrite deref_assign.
  destruct (Ptr.eq_dec q' q) as [->|Hne]; [|apply Hf].
  destruct (clamp_within q (s_add (deref q u) d) Hf) as [Hlo Hhi].
  split; intros c Hc; apply leb_R; auto.
Qed.

Lemma try_move_unused (d : R) (u : Unknowns R) (q q' : Ptr.t) :
  (forall v c, residuals p (assign q c v) = residuals p v) ->
  deref q (try_move p d u q') = deref q u.
Proof.
  intros Hind. unfold try_move.
  destruct (Ptr.eq_dec q q') as [<-|Hne].
  - rewrite ltb_R_ge; [reflexivity|].
    unfold cost. rewrite Hind. lra.
  - destruct (s_ltb _ _); [|reflexivity].
    apply deref_assign_other. exact Hne.
Qed.

(** An invariant of single moves is an invariant of the whole search. *)
Lemma minimize_invariant (P : Unknowns R -> Prop) :
  (forall d u q, P u -> P (try_move p d u q)) ->
  forall n d u, P u -> P (minimize p n d u).
Proof.
  intros Hstep. induction n as [|n IH]; intros d u Hu; cbn [minimize].
  - exact Hu.
  - apply IH. unfold sweep.
    generalize Ptr.all as l. intros l. revert u Hu.
    induction l as [|q l IHl]; intros u Hu; cbn [fold_left]; auto.
Qed.

End CoordinateSearch.

Lemma coordinate_search_respects_bounds :
  respects_bounds (@coordinate_search R _).
Proof.
  intros o p u Hf. cbn [coordinate_search fst].
  apply minimize_invariant; [|exact Hf].
  intros d v q. apply try_move_feasible.
Qed.

Lemma coordinate_search_leaves_unused_parameters :
  leaves_unused_parameters (@coordinate_search R _).
Proof.
  intros o p u q Hind. cbn [coordinate_search fst].
  apply minimize_invariant with (P := fun v => deref q v = deref q u);
    [|reflexivity].
  intros d v q' <-. apply try_move_unused, Hind.
Qed.

(** *** Bounds *)

(** C1: on every command event each of the ten published forces lies
    between MIN_THRUST = -5 and MAX_THRUST = 5, for every solver that treats
    bounds as hard constraints: the constructor bounds all ten parameters
    and the all-zero start of each solve is feasible. *)
Theorem C1_published_forces_within_limits
  (Solve : @Solver R) (HB : respects_bounds Solve)
  (a : geometry_msgs.Accel R) (now : Time) (c : @ThrusterController R)
  (q : Ptr.t) :
  (@MIN_THRUST R _ = -5 /\ @MAX_THRUST R _ = 5) /\
  MIN_THRUST <= force_of q (riptide_msgs.force (published Solve a now c))
             <= MAX_THRUST.
Proof.
  split; [split; reflexivity|].
  rewrite published_force, callback_unknowns.
  set (g := store_command a (globals c)).
  destruct (HB options (problem g) initial_guess (initial_guess_feasible g) q)
    as [Hlo Hhi].
  split; apply leb_R; [apply Hlo, problem_lower_bound
                      |apply Hhi, problem_upper_bound].
Qed.

Lemma C1_witness :
  -5 <= force_of Ptr.surge_port_lo
          (riptide_msgs.force
             (published coordinate_search (surge_command 100) 1%Z
                sample_controller))
     <= 5.
Proof.
  exact (proj2 (C1_published_forces_within_limits
                  coordinate_search_respects_bounds (surge_command 100) 1%Z
                  sample_controller Ptr.surge_port_lo)).
Defined.

(** *** Iteration cap *)

Section BoundedMinimizerFacts.

Variable propose : @Problem R -> Unknowns R -> option (Unknowns R).
Variable converged : @Problem R -> Unknowns R -> bool.
Variable p : @Problem R.





End BoundedMinimizerFacts.


(** *** Determinism and the unused unknowns: instances *)

Lemma C3_witness :
  riptide_msgs.force
    (published coordinate_search (surge_command 1) 2%Z
       (callback coordinate_search (surge_command 100) 1%Z
          (@sample_controller R _)))
  = riptide_msgs.force
      (published coordinate_search (surge_command 1) 1%Z sample_controller).
Proof.
  apply C3_identical_inputs_identical_forces; reflexivity.
Defined.

Lemma C9_witness :
  force_of Ptr.sway_fwd
    (riptide_msgs.force
       (published coordinate_search (surge_command 100) 1%Z
          (@sample_controller R _)))
  = 0.
Proof.
  refine (C9_unused_thrusters_published_zero
            coordinate_search_leaves_unused_parameters
            (surge_command 100) 1%Z (@sample_controller R _)
            (q := Ptr.sway_fwd) _).
  cbn. tauto.
Defined.

(** *** The equations *)

Ltac unfold_equations :=
  unfold surge, sway, heave, roll, pitch, yaw.

Ltac nonzero_constant :=
  first [apply MASS_nonzero | apply Ixx_nonzero | apply Iyy_nonzero
        | apply Izz_nonzero].

(** At the identity rotation and with no command, the sway residual is the
    same whether sway_fwd pushes or not. *)
Lemma sway_residual_blind_to_sway_fwd :
  let g := globals (@sample_controller R _) in
  nth 1 (residuals (problem g) (assign Ptr.sway_fwd 1 initial_guess)) 0 = 0 /\
  nth 1 (residuals (problem g) initial_guess) 0 = 0.
Proof.
  cbn zeta. rewrite !problem_residuals. cbn [nth]. unfold_equations.
  cbn. to_R. split; field; nonzero_constant.
Qed.

(** C2, refuted as stated: there is no table of mounting directions in
    which sway_fwd has a lateral component and for which the three linear
    residuals are the sum over all ten thrusters of the projected forces.
    At the identity rotation, a unit force on sway_fwd alone would change
    that sum along sway, and the sway residual of the code does not move. *)
Lemma C2_counterexample :
  ~ exists mount : Ptr.t -> tf.Vector3 R,
      tf.y (mount Ptr.sway_fwd) <> 0 /\ translational_model mount.
Proof.
  intros (mount & Hy & Hm).
  destruct sway_residual_blind_to_sway_fwd as [H1 H0]. cbn zeta in H1, H0.
  destruct (Hm (globals (@sample_controller R _))
               (assign Ptr.sway_fwd 1 initial_guess)) as (_ & E1 & _).
  change (s_of_Z 0) with 0 in E1. rewrite H1 in E1. clear - E1 Hy.
  unfold net_force_over_all_thrusters, dot3 in E1.
  cbn in E1. apply Hy. lra.
Qed.

(** C2, as the code has it: each linear residual is the net force over the
    mass minus the command, where the net force along axis i is
    R[i].x * (surge_port_lo + surge_stbd_lo)
    + R[i].z * (heave_port_fwd + heave_stbd_fwd): of the ten thrusters only
    these four enter, the low surge pair along x and the forward heave pair
    along z; sway_fwd, sway_aft and the other four carry a zero
    coefficient. *)
Theorem C2_translational_model_four_thrusters :
  translational_model (@mount_in_equations R _) /\
  forall (g : Globals R) (u : Unknowns R) (i : nat),
    net_force_over_all_thrusters mount_in_equations (rotation_matrix g) i u
    = tf.x (getRow (rotation_matrix g) i)
        * (surge_port_lo u + surge_stbd_lo u)
      + tf.z (getRow (rotation_matrix g) i)
        * (heave_port_fwd u + heave_stbd_fwd u).
Proof.
  assert (Hnet : forall (g : Globals R) (u : Unknowns R) (i : nat),
    net_force_over_all_thrusters mount_in_equations (rotation_matrix g) i u
    = tf.x (getRow (rotation_matrix g) i)
        * (surge_port_lo u + surge_stbd_lo u)
      + tf.z (getRow (rotation_matrix g) i)
        * (heave_port_fwd u + heave_stbd_fwd u)).
  { intros g u i. unfold net_force_over_all_thrusters, dot3.
    cbn [fold_right Ptr.all mount_in_equations deref tf.x tf.y tf.z].
    to_R. ring. }
  split; [|exact Hnet].
  intros g u. rewrite problem_residuals, !Hnet. cbn [nth].
  unfold_equations. to_R. repeat split; reflexivity.
Qed.

(** C5: the angular residuals carry the rigid-body cross terms, and the
    angular velocity enters them in no other way: roll is the thruster
    torque over Ixx plus (Iyy - Izz) wy wz / Ixx, pitch the torque over Iyy
    plus (Izz - Ixx) wx wz / Iyy, yaw the torque over Izz plus
    (Ixx - Iyy) wx wy / Izz, each minus its command. *)
Theorem C5_gyroscopic_cross_terms (g : Globals R)
  (f0 f1 f2 f3 f4 f5 f6 f7 : R) :
  let wx := tf.x (ang_v g) in
  let wy := tf.y (ang_v g) in
  let wz := tf.z (ang_v g) in
  roll g f0 f1 f2 f3 f4 f5
  = (f2 * vector.y (pos_heave_port_fwd g)
     + f3 * vector.y (pos_heave_stbd_fwd g)) / Ixx
    + (Iyy - Izz) * wy * wz / Ixx
    - cmdRoll g /\
  pitch g f0 f1 f2 f3 f4 f5 f6 f7
  = (f2 * vector.z (pos_surge_port_lo g)
     + f3 * vector.z (pos_surge_stbd_lo g)
     + f4 * - vector.x (pos_heave_port_fwd g)
     + f5 * - vector.x (pos_heave_stbd_fwd g)) / Iyy
    + (Izz - Ixx) * wx * wz / Iyy
    - cmdPitch g /\
  yaw g f0 f1 f2 f3 f4 f5
  = (f2 * - vector.y (pos_surge_port_lo g)
     + f3 * - vector.y (pos_surge_stbd_lo g)) / Izz
    + (Ixx - Iyy) * wx * wy / Izz
    - cmdYaw g.
Proof.
  cbn zeta. unfold_equations. to_R.
  repeat split; field; nonzero_constant.
Qed.

(** C6: for fixed globals (rotation matrix, angular velocity, positions,
    command), each of the six residual blocks is affine in the ten
    unknowns: its value at a u + (1 - a) v is a times its value at u plus
    (1 - a) times its value at v. *)
Theorem C6_residuals_affine (g : Globals R) (a : R) (u v : Unknowns R) :
  List.length (residual_blocks (problem g)) = 6%nat /\
  Forall
    (fun b =>
       evaluate b (affine_combination a u v)
       = a * evaluate b u + (1 - a) * evaluate b v)
    (residual_blocks (problem g)).
Proof.
  split; [reflexivity|].
  unfold problem.
  cbn [fold_left AddResidualBlock SetParameterLowerBound
       SetParameterUpperBound residual_blocks empty_problem app].
  repeat constructor;
    cbn [evaluate]; unfold affine_combination; rewrite !deref_tabulate;
    unfold_equations; to_R; field; nonzero_constant.
Qed.

(** ** What the handlers store *)

Section Events.

Context {T : Type} `{Scalar T}.

(** C7, as the code has it: no event is examined.  Every command event
    overwrites the six stored command components with the values of the
    event, runs one solve on the problem of the globals so updated, from
    the all-zero start, and publishes one message that carries the point
    and keeps the summary that the solve returned; every inertial event
    overwrites the stored rotation matrix and angular velocity with the
    values computed from the event. *)
Theorem C7_events_stored_unconditionally
  (Solve : Solver) (a : geometry_msgs.Accel T) (now : Time)
  (msg : sensor_msgs.Imu T) (c : ThrusterController) :
  globals (callback Solve a now c) = store_command a (globals c) /\
  cmdSurge (globals (callback Solve a now c))
  = geometry_msgs.x (geometry_msgs.linear a) /\
  cmdSway (globals (callback Solve a now c))
  = geometry_msgs.y (geometry_msgs.linear a) /\
  cmdHeave (globals (callback Solve a now c))
  = geometry_msgs.z (geometry_msgs.linear a) /\
  cmdRoll (globals (callback Solve a now c))
  = geometry_msgs.x (geometry_msgs.angular a) /\
  cmdPitch (globals (callback Solve a now c))
  = geometry_msgs.y (geometry_msgs.angular a) /\
  cmdYaw (globals (callback Solve a now c))
  = geometry_msgs.z (geometry_msgs.angular a) /\
  unknowns (callback Solve a now c)
  = fst (Solve options (problem (store_command a (globals c))) initial_guess) /\
  summary (callback Solve a now c)
  = snd (Solve options (problem (store_command a (globals c))) initial_guess) /\
  (forall q,
     force_of q (riptide_msgs.force (published Solve a now c))
     = deref q
         (fst (Solve options (problem (store_command a (globals c)))
                 initial_guess))) /\
  riptide_msgs.stamp (published Solve a now c) = now /\
  cmd_pub (callback Solve a now c) = cmd_pub c ++ [published Solve a now c] /\
  ang_v (globals (state msg c))
  = vector3MsgToTF (sensor_msgs.angular_velocity msg) /\
  rotation_matrix (globals (state msg c))
  = setRotation (normalized (quaternionMsgToTF (sensor_msgs.orientation msg))).
Proof.
  repeat match goal with |- _ /\ _ => split end;
    first [reflexivity | intros q; apply published_force].
Qed.

End Events.

(** ** The controller at binary64

    Runs of the handlers on the sample geometry, with the coordinate search
    as solver. *)

Ltac run :=
  cbn zeta;
  repeat match goal with |- _ /\ _ => split end;
  vm_compute; reflexivity.

Example run_saturating_command :
  let m :=
    riptide_msgs.force
      (published coordinate_search (surge_command 100) 1%Z
         (@sample_controller PrimFloat.float _)) in
  forallb
    (fun q => s_leb MIN_THRUST (force_of q m) && s_leb (force_of q m) MAX_THRUST)
    Ptr.all = true /\
  forallb (fun q => PrimFloat.eqb (force_of q m) PrimFloat.zero)
    unused_thrusters = true /\
  force_of Ptr.surge_port_lo m = MAX_THRUST /\
  force_of Ptr.surge_stbd_lo m = MAX_THRUST.
Proof. run. Qed.

Example run_zero_command :
  let c :=
    callback coordinate_search zero_command 1%Z
      (@sample_controller PrimFloat.float _) in
  forallb (fun q => PrimFloat.eqb (deref q (unknowns c)) PrimFloat.zero)
    Ptr.all = true /\
  forallb (fun r => PrimFloat.eqb r PrimFloat.zero)
    (residuals (problem (globals c)) (unknowns c)) = true /\
  List.length (cmd_pub c) = 1%nat.
Proof. run. Qed.

Example run_same_command_twice :
  let c1 :=
    callback coordinate_search (surge_command 1) 1%Z
      (@sample_controller PrimFloat.float _) in
  let c2 := callback coordinate_search (surge_command 1) 2%Z c1 in
  riptide_msgs.force (thrust c2) = riptide_msgs.force (thrust c1) /\
  List.length (cmd_pub c2) = 2%nat.
Proof. run. Qed.

(** C7, refuted as stated: a command whose surge component is a NaN is
    stored over the previous command and a message is published for it;
    an inertial event whose angular velocity has a NaN is stored over the
    previous angular velocity. *)
Lemma C7_counterexample :
  let c := @sample_controller PrimFloat.float _ in
  let m := sample_imu (s_of_Z 0) (s_of_Z 0) (s_of_Z 0) (s_of_Z 1)
             zero_over_zero (s_of_Z 0) (s_of_Z 0) in
  accel_has_nan nan_command = true /\
  is_nan (cmdSurge (globals c)) = false /\
  is_nan (cmdSurge (globals (callback coordinate_search nan_command 1%Z c)))
  = true /\
  globals (callback coordinate_search nan_command 1%Z c) <> globals c /\
  List.length (cmd_pub c) = 0%nat /\
  List.length (cmd_pub (callback coordinate_search nan_command 1%Z c))
  = 1%nat /\
  imu_has_nan m = true /\
  is_nan (tf.x (ang_v (globals c))) = false /\
  is_nan (tf.x (ang_v (globals (state m c)))) = true /\
  globals (state m c) <> globals c.
Proof.
  cbn zeta.
  repeat match goal with
         | |- _ /\ _ => split
         | |- _ = _ => vm_compute; reflexivity
         end.
  - intros E. apply (f_equal (fun g => is_nan (cmdSurge g))) in E.
    vm_compute in E. discriminate.
  - intros E. apply (f_equal (fun g => is_nan (tf.x (ang_v g)))) in E.
    vm_compute in E. discriminate.
Qed.


(** *** Zero and finite scalars at binary64 *)

Lemma Prim2SF_zero :
  FloatOps.Prim2SF PrimFloat.zero = SpecFloat.S754_zero false.
Proof. vm_compute. reflexivity. Qed.

Lemma Prim2SF_infinity :
  FloatOps.Prim2SF PrimFloat.infinity = SpecFloat.S754_infinity false.
Proof. vm_compute. reflexivity. Qed.

Lemma is_zero_fzero (c : PrimFloat.float) :
  PrimFloat.is_zero c = true -> fzero c.
Proof.
  unfold PrimFloat.is_zero, fzero.
  rewrite FloatAxioms.eqb_spec, Prim2SF_zero.
  destruct (FloatOps.Prim2SF c) as [s|s| |s m e]; cbn; try discriminate;
    try (destruct s; discriminate).
  intros _. eexists; reflexivity.
Qed.

Lemma fzero_is_zero (c : PrimFloat.float) :
  fzero c -> PrimFloat.is_zero c = true.
Proof.
  intros [s Hs]. unfold PrimFloat.is_zero.
  rewrite FloatAxioms.eqb_spec, Prim2SF_zero, Hs. destruct s; reflexivity.
Qed.

Lemma fzero_numerically_zero (c : PrimFloat.float) :
  fzero c -> numerically_zero c = true.
Proof.
  intros [s Hs]. unfold numerically_zero.
  cbn [s_leb s_of_Z Scalar_float float_of_Z].
  rewrite !FloatAxioms.leb_spec, Prim2SF_zero, Hs. destruct s; reflexivity.
Qed.

Lemma is_finite_ffinite (c : PrimFloat.float) :
  PrimFloat.is_finite c = true -> ffinite c.
Proof.
  unfold PrimFloat.is_finite, PrimFloat.is_nan, PrimFloat.is_infinity, ffinite.
  rewrite !FloatAxioms.eqb_spec, FloatAxioms.abs_spec, Prim2SF_infinity.
  destruct (FloatOps.Prim2SF c) as [s|s| |s m e]; cbn; try discriminate; auto;
    try (destruct s; discriminate).
Qed.


Lemma fzero_zero : fzero PrimFloat.zero.
Proof. exists false. exact Prim2SF_zero. Qed.

Lemma fzero_ffinite (c : PrimFloat.float) : fzero c -> ffinite c.
Proof. intros [s Hs]. unfold ffinite. rewrite Hs. exact I. Qed.

Lemma fnonzero_ffinite (c : PrimFloat.float) : fnonzero c -> ffinite c.
Proof. unfold fnonzero, ffinite. destruct (FloatOps.Prim2SF c); auto. Qed.

Lemma ffinite_opp (c : PrimFloat.float) :
  ffinite c -> ffinite (PrimFloat.opp c).
Proof.
  unfold ffinite. rewrite FloatAxioms.opp_spec.
  destruct (FloatOps.Prim2SF c); cbn; auto.
Qed.

(** Zero times a finite scalar is zero. *)
Lemma fzero_mul_l (c d : PrimFloat.float) :
  fzero c -> ffinite d -> fzero (PrimFloat.mul c d).
Proof.
  intros [s Hs] Hd. unfold fzero, ffinite in *.
  rewrite FloatAxioms.mul_spec, Hs.
  destruct (FloatOps.Prim2SF d); try contradiction; cbn; eexists; reflexivity.
Qed.

Lemma fzero_mul_r (c d : PrimFloat.float) :
  ffinite c -> fzero d -> fzero (PrimFloat.mul c d).
Proof.
  intros Hc [s Hs]. unfold fzero, ffinite in *.
  rewrite FloatAxioms.mul_spec, Hs.
  destruct (FloatOps.Prim2SF c); try contradiction; cbn; eexists; reflexivity.
Qed.

Lemma fzero_add (c d : PrimFloat.float) :
  fzero c -> fzero d -> fzero (PrimFloat.add c d).
Proof.
  intros [s Hs] [t Ht]. unfold fzero.
  rewrite FloatAxioms.add_spec, Hs, Ht.
  destruct s, t; cbn; eexists; reflexivity.
Qed.

Lemma fzero_sub (c d : PrimFloat.float) :
  fzero c -> fzero d -> fzero (PrimFloat.sub c d).
Proof.
  intros [s Hs] [t Ht]. unfold fzero.
  rewrite FloatAxioms.sub_spec, Hs, Ht.
  destruct s, t; cbn; eexists; reflexivity.
Qed.

(** Zero over a finite nonzero scalar is zero. *)
Lemma fzero_div (c d : PrimFloat.float) :
  fzero c -> fnonzero d -> fzero (PrimFloat.div c d).
Proof.
  intros [s Hs] Hd. unfold fzero, fnonzero in *.
  rewrite FloatAxioms.div_spec, Hs.
  destruct (FloatOps.Prim2SF d); try contradiction; cbn; eexists; reflexivity.
Qed.

Lemma fnonzero_MASS : fnonzero (@MASS PrimFloat.float _).
Proof. vm_compute. exact I. Qed.

Lemma fnonzero_Ixx : fnonzero (@Ixx PrimFloat.float _).
Proof. vm_compute. exact I. Qed.

Lemma fnonzero_Iyy : fnonzero (@Iyy PrimFloat.float _).
Proof. vm_compute. exact I. Qed.

Lemma fnonzero_Izz : fnonzero (@Izz PrimFloat.float _).
Proof. vm_compute. exact I. Qed.

Create HintDb fz.

#[local] Hint Resolve fzero_zero fzero_ffinite fnonzero_ffinite ffinite_opp
  fzero_mul_l fzero_mul_r fzero_add fzero_sub fzero_div
  fnonzero_MASS fnonzero_Ixx fnonzero_Iyy fnonzero_Izz : fz.

Ltac to_float :=
  cbv beta iota delta
    [s_of_Z s_add s_sub s_mul s_div s_opp s_sqrt s_abs s_ltb s_leb
     Scalar_float float_of_Z] in *.

(** The hypotheses on lists of scalars, entry by entry. *)
Ltac split_entries :=
  unfold all_zero, all_finite, command_entries, vector_entries,
    matrix_entries, quaternion_entries, coordinates_read in *;
  cbn [forallb] in *;
  repeat match goal with
         | E : (_ && _)%bool = true |- _ =>
             let E1 := fresh "E" in
             apply andb_prop in E; destruct E as [E1 E]
         end;
  repeat match goal with
         | E : PrimFloat.is_zero _ = true |- _ => apply is_zero_fzero in E
         | E : PrimFloat.is_finite _ = true |- _ => apply is_finite_ffinite in E
         end.

(** *** The zero command *)

(** With a zero command, zero angular velocity, finite matrix entries and
    finite position coordinates, every residual vanishes at the all-zero
    start. *)
Lemma residuals_vanish_at_rest
  (a : geometry_msgs.Accel PrimFloat.float) (g : Globals PrimFloat.float) :
  all_zero (command_entries a) = true ->
  all_zero (vector_entries (ang_v g)) = true ->
  all_finite (matrix_entries (rotation_matrix g)) = true ->
  all_finite (coordinates_read g) = true ->
  Forall fzero (residuals (problem (store_command a g)) initial_guess).
Proof.
  intros Ha Hw Hm Hp. split_entries.
  rewrite problem_residuals. unfold_equations.
  cbn [store_command initial_guess rotation_matrix ang_v getRow
       cmdSurge cmdSway cmdHeave cmdRoll cmdPitch cmdYaw
       pos_heave_port_fwd pos_heave_stbd_fwd pos_surge_port_lo
       pos_surge_stbd_lo
       surge_port_hi surge_stbd_hi surge_port_lo surge_stbd_lo sway_fwd
       sway_aft heave_port_fwd heave_stbd_fwd heave_port_aft heave_stbd_aft].
  to_float.
  repeat constructor; auto 20 with fz.
Qed.

(** The solver of the specification, with the test that every residual
    vanishes, stops at a start that passes the test. *)
Lemma bounded_minimizer_stops_at_vanishing_residuals
  {T : Type} `{Scalar T}
  (propose : @Problem T -> Unknowns T -> option (Unknowns T)) :
  stops_at_vanishing_residuals (bounded_minimizer propose vanishing).
Proof.
  intros o p u Hv. unfold bounded_minimizer.
  destruct (ceres.max_num_iterations o) as [|n]; cbn [minimizer_loop];
    [reflexivity|].
  unfold vanishing at 1. rewrite Hv. reflexivity.
Qed.

(** C4, as the code has it: for a command event whose six components are
    zero, with zero angular velocity, with a stored rotation matrix whose
    nine entries are finite and with finite position coordinates, every
    published force is zero and the six residuals at the published point
    are zero, for every solver that stops at a start whose residuals all
    vanish.  Stated at binary64, where zero is +0 or -0. *)
Theorem C4_zero_command_zero_forces
  (Solve : @Solver PrimFloat.float) (HZ : stops_at_vanishing_residuals Solve)
  (a : geometry_msgs.Accel PrimFloat.float) (now : Time)
  (c : @ThrusterController PrimFloat.float) :
  all_zero (command_entries a) = true ->
  all_zero (vector_entries (ang_v (globals c))) = true ->
  all_finite (matrix_entries (rotation_matrix (globals c))) = true ->
  all_finite (coordinates_read (globals c)) = true ->
  (forall q,
     force_of q (riptide_msgs.force (published Solve a now c))
     = PrimFloat.zero) /\
  all_zero
    (residuals (problem (globals (callback Solve a now c)))
       (unknowns (callback Solve a now c))) = true.
Proof.
  intros Ha Hw Hm Hp.
  pose proof (residuals_vanish_at_rest a (globals c) Ha Hw Hm Hp) as Hres.
  rewrite Forall_forall in Hres.
  assert (Hu : unknowns (callback Solve a now c) = initial_guess).
  { rewrite callback_unknowns. apply HZ. apply forallb_forall.
    intros r Hr. apply fzero_numerically_zero, Hres, Hr. }
  split.
  - intros q. rewrite published_force, Hu. destruct q; reflexivity.
  - rewrite Hu. cbn [callback globals]. unfold all_zero.
    apply forallb_forall. intros r Hr. apply fzero_is_zero, Hres, Hr.
Qed.

Lemma C4_witness :
  let c :=
    state (sample_imu (s_of_Z 0) (s_of_Z 0) (s_of_Z 3) (s_of_Z 4)
             (s_of_Z 0) (s_of_Z 0) (s_of_Z 0))
      (@sample_controller PrimFloat.float _) in
  (forall q,
     force_of q
       (riptide_msgs.force (published sample_minimizer zero_command 1%Z c))
     = PrimFloat.zero) /\
  all_zero
    (residuals
       (problem (globals (callback sample_minimizer zero_command 1%Z c)))
       (unknowns (callback sample_minimizer zero_command 1%Z c))) = true.
Proof.
  cbn zeta.
  apply (C4_zero_command_zero_forces
           (bounded_minimizer_stops_at_vanishing_residuals _));
    vm_compute; reflexivity.
Defined.

(** C4, refuted as stated: after an inertial message whose orientation is
    all-zero and whose angular velocity is zero, the command and the
    angular velocity are zero and the zero command publishes zero forces,
    but the stored matrix is not finite and the three linear residuals are
    NaN; after a start-up whose position table holds NaN, the three angular
    residuals are NaN. *)
Lemma C4_counterexample :
  let c :=
    state (sample_imu (s_of_Z 0) (s_of_Z 0) (s_of_Z 0) (s_of_Z 0)
             (s_of_Z 0) (s_of_Z 0) (s_of_Z 0))
      (@sample_controller PrimFloat.float _) in
  let c' := callback coordinate_search zero_command 1%Z c in
  let d := ThrusterController_new nan_lookupTransform initial_guess in
  let d' := callback coordinate_search zero_command 1%Z d in
  all_zero (command_entries zero_command) = true /\
  all_zero (vector_entries (ang_v (globals c))) = true /\
  all_finite (coordinates_read (globals c)) = true /\
  all_finite (matrix_entries (rotation_matrix (globals c))) = false /\
  map PrimFloat.is_nan (residuals (problem (globals c')) (unknowns c'))
  = [true; true; true; false; false; false] /\
  all_zero (residuals (problem (globals c')) (unknowns c')) = false /\
  forallb (fun q => PrimFloat.is_zero (deref q (unknowns c'))) Ptr.all = true /\
  all_zero (vector_entries (ang_v (globals d))) = true /\
  all_finite (matrix_entries (rotation_matrix (globals d))) = true /\
  all_finite (coordinates_read (globals d)) = false /\
  map PrimFloat.is_nan (residuals (problem (globals d')) (unknowns d'))
  = [false; false; false; true; true; true].
Proof. run. Qed.

(** *** The stored rotation *)


(** A solve that never converges, at binary64: it stops at the cap and the
    event still publishes once, within the limits. *)
Example run_capped_solve :
  let c' :=
    callback restless_minimizer (surge_command 100) 1%Z
      (@sample_controller PrimFloat.float _) in
  summary c'
  = {| ceres.termination_type := ceres.NO_CONVERGENCE;
       ceres.num_iterations := 100 |} /\
  List.length (cmd_pub c') = 1%nat /\
  forallb
    (fun q =>
       s_leb MIN_THRUST (deref q (unknowns c'))
       && s_leb (deref q (unknowns c')) MAX_THRUST)
    Ptr.all = true /\
  deref Ptr.surge_port_lo (unknowns c') = MAX_THRUST.
Proof. run. Qed.

(** ** Runs of the event loop *)

Section Runs.

Context {T : Type} `{Scalar T}.
Variable Solve : @Solver T.

Lemma loop_snoc (evs : list Event) (e : Event) (c : @ThrusterController T) :
  loop Solve (evs ++ [e]) c = dispatch Solve e (loop Solve evs c).
Proof. unfold loop. rewrite fold_left_app. reflexivity. Qed.

Lemma loop_cons (e : Event) (evs : list Event) (c : @ThrusterController T) :
  loop Solve (e :: evs) c = loop Solve evs (dispatch Solve e c).
Proof. reflexivity. Qed.

(** What every handler preserves, every run preserves. *)
Lemma loop_invariant (P : @ThrusterController T -> Prop) :
  (forall e c, P c -> P (dispatch Solve e c)) ->
  forall evs c, P c -> P (loop Solve evs c).
Proof.
  intros Hstep evs. induction evs as [|e evs IH]; intros c Hc.
  - exact Hc.
  - rewrite loop_cons. apply IH, Hstep, Hc.
Qed.

Lemma latest_imu_snoc (evs : list (@Event T)) (e : Event) :
  latest_imu (evs ++ [e]) =
  match e with ImuEvent m => Some m | AccelEvent _ _ => latest_imu evs end.
Proof. unfold latest_imu. rewrite fold_left_app. destruct e; reflexivity. Qed.

Lemma latest_command_snoc (evs : list (@Event T)) (e : Event) :
  latest_command (evs ++ [e]) =
  match e with ImuEvent _ => latest_command evs | AccelEvent a _ => Some a end.
Proof.
  unfold latest_command. rewrite fold_left_app. destruct e; reflexivity.
Qed.

Lemma command_times_snoc (evs : list (@Event T)) (e : Event) :
  command_times (evs ++ [e]) =
  match e with
  | ImuEvent _ => command_times evs
  | AccelEvent _ now => command_times evs ++ [now]
  end.
Proof.
  induction evs as [|e' evs IH]; [destruct e; reflexivity|].
  cbn [app command_times]. rewrite IH. destruct e', e; reflexivity.
Qed.

(** No handler writes a thruster position or the sensor offset. *)
Lemma loop_geometry (evs : list Event) (c : @ThrusterController T) :
  geometry (globals (loop Solve evs c)) = geometry (globals c) /\
  v_imu (globals (loop Solve evs c)) = v_imu (globals c).
Proof.
  apply loop_invariant
    with (P := fun c' => geometry (globals c') = geometry (globals c) /\
                         v_imu (globals c') = v_imu (globals c));
    [|split; reflexivity].
  intros e c' [Hg Hv]. destruct e; split; (exact Hg || exact Hv).
Qed.

(** The rotation matrix and the angular velocity are those of the last
    inertial message. *)
Lemma loop_vehicle_state (evs : list Event) (c : @ThrusterController T) :
  rotation_matrix (globals (loop Solve evs c)) =
    match latest_imu evs with
    | Some m =>
        setRotation (normalized (quaternionMsgToTF (sensor_msgs.orientation m)))
    | None => rotation_matrix (globals c)
    end /\
  ang_v (globals (loop Solve evs c)) =
    match latest_imu evs with
    | Some m => vector3MsgToTF (sensor_msgs.angular_velocity m)
    | None => ang_v (globals c)
    end.
Proof.
  induction evs as [|e evs IH] using rev_ind; [split; reflexivity|].
  rewrite loop_snoc, latest_imu_snoc. destruct e as [m|a now].
  - split; reflexivity.
  - exact IH.
Qed.

(** X1: publications are append-only and there is exactly one per command
    event: a run leaves the earlier messages in place and appends one
    message for each command event, stamped with the clock value of that
    event, in order; inertial events publish nothing. *)
Theorem X1_one_stamped_message_per_command
  (evs : list Event) (c : @ThrusterController T) :
  exists new : list (riptide_msgs.ThrustStamped T),
    cmd_pub (loop Solve evs c) = cmd_pub c ++ new /\
    map (@riptide_msgs.stamp T) new = command_times evs /\
    List.length new = List.length (command_times evs).
Proof.
  revert c. induction evs as [|e evs IH]; intros c.
  - exists []. rewrite app_nil_r. repeat split.
  - rewrite loop_cons.
    destruct (IH (dispatch Solve e c)) as (new & Hp & Hs & Hl).
    destruct e as [m|a now].
    + exists new. repeat split; assumption.
    + exists (published Solve a now c :: new). rewrite Hp.
      cbn [dispatch]. rewrite callback_publishes_once, <- app_assoc.
      cbn [map List.length command_times app]. rewrite Hs, Hl.
      repeat split.
Qed.

(** X2: every message published in a run of [main] carries the frame
    "base_link": the constructor sets it once and no handler changes it. *)
Theorem X2_every_message_in_base_link
  (lookupTransform : string -> tf.Vector3 T) (uninitialised : Unknowns T)
  (evs : list Event) :
  Forall (fun m => riptide_msgs.frame_id m = "base_link"%string)
    (cmd_pub (main Solve lookupTransform uninitialised evs)) /\
  riptide_msgs.frame_id (thrust (main Solve lookupTransform uninitialised evs))
  = "base_link"%string.
Proof.
  unfold main.
  apply loop_invariant
    with (P := fun c =>
                 Forall (fun m => riptide_msgs.frame_id m = "base_link"%string)
                   (cmd_pub c) /\
                 riptide_msgs.frame_id (thrust c) = "base_link"%string);
    [|split; [constructor | reflexivity]].
  intros e c [Hall Hf]. destruct e as [m|a now]; [split; assumption|].
  cbn [dispatch]. rewrite callback_publishes_once. split.
  - apply Forall_app. split; [exact Hall|]. repeat constructor. exact Hf.
  - exact Hf.
Qed.

(** X3: in every run of [main] each equation reads the position of the
    right frame: at any point of the run the ten thruster positions are the
    origins looked up at start-up for the frames of the same names, and the
    sensor offset is that of "/imu_one_link"; no event changes them. *)
Theorem X3_geometry_fixed_at_startup
  (lookupTransform : string -> tf.Vector3 T) (uninitialised : Unknowns T)
  (evs : list Event) :
  geometry (globals (main Solve lookupTransform uninitialised evs))
  = map (fun frame => get_transform (lookupTransform frame)) thruster_frames /\
  v_imu (globals (main Solve lookupTransform uninitialised evs))
  = get_transform (lookupTransform "/imu_one_link"%string).
Proof.
  unfold main.
  destruct (loop_geometry evs
              (ThrusterController_new lookupTransform uninitialised))
    as [Hg Hv].
  rewrite Hg, Hv. split; reflexivity.
Qed.

(** X4: in a run of [main] the rotation matrix and the angular velocity
    read by the equations are those of the last inertial message delivered,
    whatever came before it and whatever commands came after it; before the
    first inertial message they are the identity and zero. *)
Theorem X4_last_inertial_message_wins
  (lookupTransform : string -> tf.Vector3 T) (uninitialised : Unknowns T)
  (evs : list Event) :
  rotation_matrix (globals (main Solve lookupTransform uninitialised evs)) =
    match latest_imu evs with
    | Some m =>
        setRotation (normalized (quaternionMsgToTF (sensor_msgs.orientation m)))
    | None => setIdentity
    end /\
  ang_v (globals (main Solve lookupTransform uninitialised evs)) =
    match latest_imu evs with
    | Some m => vector3MsgToTF (sensor_msgs.angular_velocity m)
    | None => setZero
    end.
Proof.
  unfold main.
  exact (loop_vehicle_state evs
           (ThrusterController_new lookupTransform uninitialised)).
Qed.

(** X5: after a run the six command globals hold the last command
    delivered, whatever inertial messages came after it; a run without a
    command leaves them as they were. *)
Theorem X5_last_command_stored
  (evs : list Event) (c : @ThrusterController T) :
  stored_command (globals (loop Solve evs c)) =
  match latest_command evs with
  | Some a => a
  | None => stored_command (globals c)
  end.
Proof.
  induction evs as [|e evs IH] using rev_ind; [reflexivity|].
  rewrite loop_snoc, latest_command_snoc. destruct e as [m|a now].
  - exact IH.
  - destruct a as [[lx ly lz] [ax ay az]]. reflexivity.
Qed.

(** X6: the forces published for a command depend on the past of the run
    only through the last inertial message: two runs of [main] on the same
    geometry, with any earlier commands and inertial messages, any clock
    values and any initial content of the force members, publish the same
    ten forces for the same command when their last inertial messages are
    the same. *)
Theorem X6_forces_depend_on_last_inertial_message_only
  (lookupTransform : string -> tf.Vector3 T)
  (uninitialised1 uninitialised2 : Unknowns T)
  (evs1 evs2 : list Event) (a : geometry_msgs.Accel T) (now1 now2 : Time) :
  latest_imu evs1 = latest_imu evs2 ->
  riptide_msgs.force
    (thrust (main Solve lookupTransform uninitialised1
               (evs1 ++ [AccelEvent a now1])))
  = riptide_msgs.force
      (thrust (main Solve lookupTransform uninitialised2
                 (evs2 ++ [AccelEvent a now2]))).
Proof.
  intros Himu. unfold main. rewrite !loop_snoc. cbn [dispatch].
  set (c1 := loop Solve evs1 _). set (c2 := loop Solve evs2 _).
  assert (Hp : problem (store_command a (globals c1))
               = problem (store_command a (globals c2))).
  { subst c1 c2. apply problem_of_equal_inputs.
    - rewrite (proj1 (loop_vehicle_state evs1 _)),
              (proj1 (loop_vehicle_state evs2 _)), Himu.
      reflexivity.
    - rewrite (proj2 (loop_vehicle_state evs1 _)),
              (proj2 (loop_vehicle_state evs2 _)), Himu.
      reflexivity.
    - rewrite (proj1 (loop_geometry evs1 _)), (proj1 (loop_geometry evs2 _)).
      reflexivity. }
  unfold callback. cbn [thrust]. rewrite Hp. reflexivity.
Qed.

(** X7: once a command has been delivered, the [thrust] member is the last
    message published and its ten forces are the values held by the force
    members, whatever inertial messages have arrived since. *)
Theorem X7_thrust_member_is_last_publication
  (evs : list Event) (c : @ThrusterController T) :
  command_times evs <> [] ->
  (exists earlier,
     cmd_pub (loop Solve evs c) = earlier ++ [thrust (loop Solve evs c)]) /\
  forall q,
    force_of q (riptide_msgs.force (thrust (loop Solve evs c)))
    = deref q (unknowns (loop Solve evs c)).
Proof.
  induction evs as [|e evs IH] using rev_ind; [intros Hne; contradiction|].
  rewrite loop_snoc, command_times_snoc. destruct e as [m|a now].
  - intros Hne. exact (IH Hne).
  - intros _. cbn [dispatch]. split.
    + exists (cmd_pub (loop Solve evs c)). apply callback_publishes_once.
    + intros q. apply (published_force Solve a now (loop Solve evs c) q).
Qed.

(** The six unused unknowns of one command event (shared with the runs
    below). *)
Lemma published_unused_zero (HS : leaves_unused_parameters Solve)
  (a : geometry_msgs.Accel T) (now : Time) (c : @ThrusterController T)
  (q : Ptr.t) :
  In q unused_thrusters ->
  force_of q (riptide_msgs.force (published Solve a now c)) = s_of_Z 0.
Proof.
  intros Hq. rewrite published_force, callback_unknowns.
  rewrite (HS _ _ _ q (residuals_ignore_unused _ Hq)).
  cbn in Hq.
  repeat (destruct Hq as [<-|Hq]; [reflexivity|]).
  contradiction.
Qed.

(** X8: in every message published in a run of [main], the forces of the
    six thrusters that no equation reads are zero, for every solver that
    does not move a parameter on which no residual depends. *)
Theorem X8_unused_forces_zero_throughout
  (HS : leaves_unused_parameters Solve)
  (lookupTransform : string -> tf.Vector3 T) (uninitialised : Unknowns T)
  (evs : list Event) :
  Forall
    (fun m =>
       forall q, In q unused_thrusters ->
                 force_of q (riptide_msgs.force m) = s_of_Z 0)
    (cmd_pub (main Solve lookupTransform uninitialised evs)).
Proof.
  unfold main.
  apply loop_invariant
    with (P := fun c =>
                 Forall
                   (fun m =>
                      forall q, In q unused_thrusters ->
                                force_of q (riptide_msgs.force m) = s_of_Z 0)
                   (cmd_pub c));
    [|constructor].
  intros e c Hall. destruct e as [m|a now]; [exact Hall|].
  cbn [dispatch]. rewrite callback_publishes_once.
  apply Forall_app. split; [exact Hall|].
  constructor; [|constructor].
  intros q Hq. apply published_unused_zero; assumption.
Qed.

End Runs.

(** ** Runs over the real numbers *)

(** The limits on one command event (shared with the runs below). *)
Lemma published_within_limits
  (Solve : @Solver R) (HB : respects_bounds Solve)
  (a : geometry_msgs.Accel R) (now : Time) (c : @ThrusterController R)
  (q : Ptr.t) :
  MIN_THRUST <= force_of q (riptide_msgs.force (published Solve a now c))
             <= MAX_THRUST.
Proof.
  rewrite published_force, callback_unknowns.
  set (g := store_command a (globals c)).
  destruct (HB options (problem g) initial_guess (initial_guess_feasible g) q)
    as [Hlo Hhi].
  split; apply leb_R; [apply Hlo, problem_lower_bound
                      |apply Hhi, problem_upper_bound].
Qed.

(** X9: every force of every message published in a run of [main] lies
    between MIN_THRUST and MAX_THRUST, for every solver that treats bounds
    as hard constraints. *)
Theorem X9_forces_within_limits_throughout
  (Solve : @Solver R) (HB : respects_bounds Solve)
  (lookupTransform : string -> tf.Vector3 R) (uninitialised : Unknowns R)
  (evs : list Event) :
  Forall
    (fun m =>
       forall q,
         MIN_THRUST <= force_of q (riptide_msgs.force m) <= MAX_THRUST)
    (cmd_pub (main Solve lookupTransform uninitialised evs)).
Proof.
  unfold main.
  apply loop_invariant
    with (P := fun c =>
                 Forall
                   (fun m =>
                      forall q,
                        MIN_THRUST <= force_of q (riptide_msgs.force m)
                                   <= MAX_THRUST)
                   (cmd_pub c));
    [|constructor].
  intros e c Hall. destruct e as [m|a now]; [exact Hall|].
  cbn [dispatch]. rewrite callback_publishes_once.
  apply Forall_app. split; [exact Hall|].
  constructor; [|constructor].
  intros q. apply published_within_limits, HB.
Qed.

(** *** Instances on the sample geometry *)

Lemma X6_witness :
  riptide_msgs.force
    (thrust
       (main (@coordinate_search R _) sample_lookupTransform
          (tabulate (fun _ => 7))
          ([AccelEvent (surge_command 100) 1%Z;
            ImuEvent (sample_imu 0 0 0 1 0 0 0);
            ImuEvent (sample_imu 0 0 3 4 (1 / 10) 0 0)]
           ++ [AccelEvent (surge_command 1) 2%Z])))
  = riptide_msgs.force
      (thrust
         (main (@coordinate_search R _) sample_lookupTransform initial_guess
            ([ImuEvent (sample_imu 0 0 3 4 (1 / 10) 0 0)]
             ++ [AccelEvent (surge_command 1) 9%Z]))).
Proof.
  apply X6_forces_depend_on_last_inertial_message_only. reflexivity.
Defined.

Lemma X7_witness :
  let c :=
    loop (@coordinate_search R _)
      [AccelEvent (surge_command 1) 1%Z; ImuEvent (sample_imu 0 0 3 4 0 0 0)]
      sample_controller in
  (exists earlier, cmd_pub c = earlier ++ [thrust c]) /\
  forall q, force_of q (riptide_msgs.force (thrust c)) = deref q (unknowns c).
Proof.
  apply X7_thrust_member_is_last_publication. cbn. discriminate.
Defined.

Lemma X8_witness :
  Forall
    (fun m =>
       forall q, In q unused_thrusters ->
                 force_of q (riptide_msgs.force m) = 0)
    (cmd_pub
       (main (@coordinate_search R _) sample_lookupTransform initial_guess
          [AccelEvent (surge_command 100) 1%Z;
           ImuEvent (sample_imu 0 0 3 4 0 0 0);
           AccelEvent (surge_command 1) 2%Z])).
Proof.
  exact (X8_unused_forces_zero_throughout
           coordinate_search_leaves_unused_parameters
           sample_lookupTransform initial_guess _).
Defined.

Lemma X9_witness :
  Forall
    (fun m => forall q, -5 <= force_of q (riptide_msgs.force m) <= 5)
    (cmd_pub
       (main (@coordinate_search R _) sample_lookupTransform initial_guess
          [AccelEvent (surge_command 100) 1%Z;
           ImuEvent (sample_imu 0 0 3 4 0 0 0);
           AccelEvent (surge_command 1) 2%Z])).
Proof.
  exact (X9_forces_within_limits_throughout
           coordinate_search_respects_bounds
           sample_lookupTransform initial_guess _).
Defined.

(** ** Before the first inertial message, at binary64 *)

Lemma is_nan_false (c : PrimFloat.float) :
  PrimFloat.is_nan c = false -> FloatOps.Prim2SF c <> SpecFloat.S754_nan.
Proof.
  unfold PrimFloat.is_nan. rewrite FloatAxioms.eqb_spec. intros Hn E.
  rewrite E in Hn. discriminate.
Qed.

(** Zero minus a scalar compares equal to the opposite of the scalar. *)
Lemma fzero_sub_opp (z c : PrimFloat.float) :
  fzero z -> PrimFloat.is_nan c = false ->
  PrimFloat.eqb (PrimFloat.sub z c) (PrimFloat.opp c) = true.
Proof.
  intros [s Hs] Hn. apply is_nan_false in Hn. revert Hn.
  rewrite FloatAxioms.eqb_spec, FloatAxioms.sub_spec, FloatAxioms.opp_spec, Hs.
  destruct (FloatOps.Prim2SF c) as [t|t| |t m e]; intros Hn.
  - destruct s, t; reflexivity.
  - destruct t; reflexivity.
  - contradiction.
  - unfold SpecFloat.SFeqb. cbn.
    destruct t; cbn; rewrite Z.compare_refl, Pos.compare_cont_refl;
      reflexivity.
Qed.

(** X10: until the first inertial message arrives, no allocation can serve
    a sway command.  At any point of a run of [main] without an inertial
    message the rotation matrix is the identity, and for every command
    whose sway component is not a NaN and every ten forces whose two pair
    sums are finite, the sway residual compares equal to minus the sway
    command: the forces do not enter it. *)
Theorem X10_sway_out_of_reach_before_first_inertial_message
  (Solve : @Solver PrimFloat.float)
  (lookupTransform : string -> tf.Vector3 PrimFloat.float)
  (uninitialised : Unknowns PrimFloat.float)
  (evs : list Event) (a : geometry_msgs.Accel PrimFloat.float)
  (u : Unknowns PrimFloat.float) :
  latest_imu evs = None ->
  PrimFloat.is_nan (geometry_msgs.y (geometry_msgs.linear a)) = false ->
  PrimFloat.is_finite (PrimFloat.add (surge_port_lo u) (surge_stbd_lo u))
  = true ->
  PrimFloat.is_finite (PrimFloat.add (heave_port_fwd u) (heave_stbd_fwd u))
  = true ->
  PrimFloat.eqb
    (nth 1
       (residuals
          (problem
             (store_command a
                (globals (main Solve lookupTransform uninitialised evs))))
          u)
       PrimFloat.zero)
    (PrimFloat.opp (geometry_msgs.y (geometry_msgs.linear a))) = true.
Proof.
  intros Himu Hn Hs Hh.
  apply is_finite_ffinite in Hs. apply is_finite_ffinite in Hh.
  rewrite problem_residuals. cbn [nth]. unfold sway.
  cbn [store_command rotation_matrix cmdSway]. unfold main.
  rewrite (proj1 (loop_vehicle_state Solve evs _)), Himu.
  cbn [ThrusterController_new globals rotation_matrix].
  unfold setIdentity. cbn [getRow tf.row1 tf.x tf.z]. to_float.
  apply fzero_sub_opp; [|exact Hn]. auto 10 with fz.
Qed.

Lemma X10_witness :
  PrimFloat.eqb
    (nth 1
       (residuals
          (problem
             (store_command
                (geometry_msgs.mkAccel
                   (geometry_msgs.mkVector3 (s_of_Z 0) (s_of_Z 2) (s_of_Z 0))
                   (geometry_msgs.mkVector3 (s_of_Z 0) (s_of_Z 0) (s_of_Z 0)))
                (globals
                   (main coordinate_search sample_lookupTransform
                      initial_guess [AccelEvent (surge_command 1) 1%Z]))))
          (tabulate (fun _ => s_of_Z 5)))
       PrimFloat.zero)
    (PrimFloat.opp (s_of_Z 2)) = true.
Proof.
  apply (X10_sway_out_of_reach_before_first_inertial_message
           coordinate_search sample_lookupTransform initial_guess
           [AccelEvent (surge_command 1) 1%Z]);
    vm_compute; reflexivity.
Defined.
